(** * HullOverlap: overlap detection between two survey lines

    A shallow embedding of [src/src/geometry/HullOverlap.hpp]:
    Andrew's monotone chain hull ([AndrewsConvex_hull]), the class
    [HullOverlap] (projection, 2D basis, hulls, point classification and
    the full / minimal-memory policies) and its accessors.

    Numbers.  C++ [float] (pcl's coordinates, [coord_t]) and [double]
    (Eigen's vectors, the bounding-box accumulators) are IEEE binary32 and
    binary64 values, modelled with the Standard Library's executable
    specification of IEEE arithmetic ([SpecFloat], round to nearest even),
    at precision 24 / exponent 128 and 53 / 1024 respectively.  Andrew's
    hull is written over a small interface of coordinate operations
    ([Coord]), the way the C++ code is written over the [coord_t] typedef,
    and is instantiated both with binary32 and with exact integers. *)

From Stdlib Require Import String.
From Stdlib Require Import ZArith List Bool Lia.
From Stdlib Require Import SpecFloat QArith.
From Stdlib Require Import Sorted Permutation.
Import ListNotations.

Open Scope Z_scope.

(* ------------------------------------------------------------------ *)
(** ** IEEE numbers *)

(** [float] (binary32) and [double] (binary64). *)
Definition float := spec_float.
Definition double := spec_float.

Definition fsub : float -> float -> float := SFsub 24 128.
Definition fmul : float -> float -> float := SFmul 24 128.

Definition dadd : double -> double -> double := SFadd 53 1024.
Definition dsub : double -> double -> double := SFsub 53 1024.
Definition dmul : double -> double -> double := SFmul 53 1024.
Definition ddiv : double -> double -> double := SFdiv 53 1024.
Definition dsqrt : double -> double := SFsqrt 53 1024.

(** The value [m * 2^e] rounded to a [float] / to a [double]. *)
Definition mk_float (m e : Z) : float := binary_normalize 24 128 m e false.
Definition mk_double (m e : Z) : double := binary_normalize 53 1024 m e false.

(** Implicit conversions: [float] to [double] is exact, [double] to [float]
    rounds. *)
Definition float_to_double (v : float) : double :=
  match v with
  | S754_finite s m e => binary_normalize 53 1024 (cond_Zopp s (Zpos m)) e false
  | _ => v
  end.

Definition double_to_float (v : double) : float :=
  match v with
  | S754_finite s m e => binary_normalize 24 128 (cond_Zopp s (Zpos m)) e false
  | _ => v
  end.

Definition fzero : float := S754_zero false.

(* ------------------------------------------------------------------ *)
(** ** Coordinates *)

(** The operations the monotone chain uses on [coord_t]: subtraction and
    product inside [cross], [<] and [==] inside [PointAndrews::operator<],
    and the test [cross(...) <= 0].  ([cross] returns its [float] result as
    a [double]; the conversion is exact and keeps the sign.) *)
Class Coord (C : Type) := {
  csub : C -> C -> C;
  cmul : C -> C -> C;
  czero : C;
  cltb : C -> C -> bool;
  ceqb : C -> C -> bool;
  cleb : C -> C -> bool
}.

#[export] Instance Coord_Z : Coord Z := {
  csub := Z.sub; cmul := Z.mul; czero := 0;
  cltb := Z.ltb; ceqb := Z.eqb; cleb := Z.leb
}.

#[export] Instance Coord_float : Coord float := {
  csub := fsub; cmul := fmul; czero := fzero;
  cltb := SFltb; ceqb := SFeqb; cleb := SFleb
}.

(** Exact rational coordinates: what [coord2_t] is meant to give [cross],
    "big enough to hold" the products. *)
#[export] Instance Coord_Q : Coord Q := {
  csub := Qminus; cmul := Qmult; czero := 0%Q;
  cltb := fun p q => negb (Qle_bool q p); ceqb := Qeq_bool; cleb := Qle_bool
}.

(* ------------------------------------------------------------------ *)
(** ** Andrew's monotone chain *)

Section Andrews.

Context {C : Type} `{Coord C}.

(** [struct PointAndrews { coord_t x; coord_t y; uint64_t index; }] *)
Record PointAndrews := mkPointAndrews {
  x : C;
  y : C;
  index : nat
}.

(** [PointAndrews::operator<]: [x < p.x || (x == p.x && y < p.y)]. *)
Definition lt_PointAndrews (p q : PointAndrews) : bool :=
  cltb (x p) (x q) || (ceqb (x p) (x q) && cltb (y p) (y q)).

(** [cross(O, A, B)]. *)
Definition cross (O A B : PointAndrews) : C :=
  csub (cmul (csub (x A) (x O)) (csub (y B) (y O)))
       (cmul (csub (y A) (y O)) (csub (x B) (x O))).

(** [sort(points.begin(), points.end())] with [operator<].  [std::sort]
    leaves the order of equivalent points unspecified; the model fixes one
    (insertion sort), and nothing proved below depends on that choice
    beyond the result being a permutation of the input. *)
Fixpoint insert_PointAndrews (p : PointAndrews) (l : list PointAndrews)
  : list PointAndrews :=
  match l with
  | [] => [p]
  | q :: r =>
      if lt_PointAndrews q p then q :: insert_PointAndrews p r else p :: l
  end.

Definition sort_PointAndrews (l : list PointAndrews) : list PointAndrews :=
  fold_right insert_PointAndrews [] l.

(** The array [hull] with its counter [k] is kept as the list of its first
    [k] cells, most recent first: the head is [hull[k-1]].  One step of
    [while (k >= t && cross(hull[k-2], hull[k-1], p) <= 0) k--;]
    (the lower chain uses [t = 2]). *)
Fixpoint pop_while (t : nat) (st : list PointAndrews) (p : PointAndrews)
  : list PointAndrews :=
  match st with
  | b :: ((a :: _) as rest) =>
      if Nat.leb t (length st) && cleb (cross a b p) czero
      then pop_while t rest p
      else st
  | _ => st
  end.

(** One iteration of either loop: pop, then [hull[k++] = p]. *)
Definition chain_step (t : nat) (st : list PointAndrews) (p : PointAndrews)
  : list PointAndrews :=
  p :: pop_while t st p.

(** [for (size_t i = 0; i < n; ++i) ...]: the lower chain. *)
Definition lower_chain (sorted : list PointAndrews) : list PointAndrews :=
  fold_left (chain_step 2) sorted [].

(** [for (size_t i = n-1, t = k+1; i > 0; --i) ...]: the upper chain visits
    [points[n-2]], ..., [points[0]] on top of the lower chain. *)
Definition upper_chain (sorted lower : list PointAndrews) : list PointAndrews :=
  fold_left (chain_step (S (length lower)))
            (rev (firstn (length sorted - 1) sorted)) lower.

(** [AndrewsConvex_hull(hull, points)]: returns the new contents of [hull]
    and of [points] (which the C++ function sorts in place). *)
Definition AndrewsConvex_hull (points : list PointAndrews)
  : list PointAndrews * list PointAndrews :=
  let n := length points in
  if Nat.leb n 3 then (points, points)
  else
    let sorted := sort_PointAndrews points in
    let lower := lower_chain sorted in
    let st := upper_chain sorted lower in
    (* [hull.resize(k-1)]: drop [hull[k-1]] *)
    (rev (tl st), sorted).

End Andrews.

Arguments PointAndrews C : clear implicits.

(* ------------------------------------------------------------------ *)
(** ** pcl and Eigen values *)

Module pcl.

(** [pcl::PointXYZ]. *)
Record PointXYZ := mkPointXYZ {
  x : float;
  y : float;
  z : float
}.

End pcl.

(** A [pcl::PointCloud<pcl::PointXYZ>]: its [points] vector. *)
Definition PointCloud := list pcl.PointXYZ.

Definition origin : pcl.PointXYZ := pcl.mkPointXYZ fzero fzero fzero.

(** [cloud->points[i]] for an index known to be in range. *)
Definition point_at (cl : PointCloud) (i : nat) : pcl.PointXYZ :=
  nth i cl origin.

(** [Eigen::Vector3d], entries [(0)], [(1)], [(2)]. *)
Record Vector3d := mkVector3d {
  v0 : double;
  v1 : double;
  v2 : double
}.

(** [v.norm()]: the square root of the squared norm. *)
Definition norm (v : Vector3d) : double :=
  dsqrt (dadd (dadd (dmul (v0 v) (v0 v)) (dmul (v1 v) (v1 v)))
              (dmul (v2 v) (v2 v))).

(** [v / s]. *)
Definition vdiv (v : Vector3d) (s : double) : Vector3d :=
  mkVector3d (ddiv (v0 v) s) (ddiv (v1 v) s) (ddiv (v2 v) s).

(** [u.cross(v)]. *)
Definition vcross (u v : Vector3d) : Vector3d :=
  mkVector3d (dsub (dmul (v1 u) (v2 v)) (dmul (v2 u) (v1 v)))
             (dsub (dmul (v2 u) (v0 v)) (dmul (v0 u) (v2 v)))
             (dsub (dmul (v0 u) (v1 v)) (dmul (v1 u) (v0 v))).

(** [static_cast<int>] of a [uint64_t] index (two's complement wrap). *)
Definition static_cast_int (n : nat) : Z :=
  let m := Z.of_nat n mod 2 ^ 32 in
  if m <? 2 ^ 31 then m else m - 2 ^ 32.

(* ------------------------------------------------------------------ *)
(** ** The members of a [HullOverlap] object *)

(** The six [pcl::PointCloud<pcl::PointXYZ>::Ptr] members.  Each is a
    shared pointer: [None] is [nullptr], the state minimal-memory mode
    leaves a member in after [reset()]. *)
Inductive CloudMember :=
  | line1InPlane_ | line2InPlane_
  | line1InPlane2D_ | line2InPlane2D_
  | hull1Vertices_ | hull2Vertices_.

Definition CloudMember_eqb (m1 m2 : CloudMember) : bool :=
  match m1, m2 with
  | line1InPlane_, line1InPlane_ | line2InPlane_, line2InPlane_
  | line1InPlane2D_, line1InPlane2D_ | line2InPlane2D_, line2InPlane2D_
  | hull1Vertices_, hull1Vertices_ | hull2Vertices_, hull2Vertices_ => true
  | _, _ => false
  end.

(** Line #1 or line #2, for the members that come in pairs. *)
Inductive Line := Line1 | Line2.

(** The mutable members.  The [const] members ([line1], [line2], the plane
    coefficients, [hullMethod] and the alphas) are the variables of the
    section [Engine] below. *)
Record Members := mkMembers {
  clouds : CloudMember -> option PointCloud;
  hull1PointIndices : list Z;
  hull2PointIndices : list Z;
  line1InBothHullPointIndices : list nat;
  line2InBothHullPointIndices : list nat;
  vector1 : Vector3d;
  vector2 : Vector3d;
  refPoint : pcl.PointXYZ
}.

Definition set_cloud (m : CloudMember) (v : option PointCloud) (s : Members)
  : Members :=
  mkMembers (fun m' => if CloudMember_eqb m m' then v else clouds s m')
    (hull1PointIndices s) (hull2PointIndices s)
    (line1InBothHullPointIndices s) (line2InBothHullPointIndices s)
    (vector1 s) (vector2 s) (refPoint s).

Definition set_hullPointIndices (l : Line) (v : list Z) (s : Members)
  : Members :=
  match l with
  | Line1 =>
      mkMembers (clouds s) v (hull2PointIndices s)
        (line1InBothHullPointIndices s) (line2InBothHullPointIndices s)
        (vector1 s) (vector2 s) (refPoint s)
  | Line2 =>
      mkMembers (clouds s) (hull1PointIndices s) v
        (line1InBothHullPointIndices s) (line2InBothHullPointIndices s)
        (vector1 s) (vector2 s) (refPoint s)
  end.

Definition set_lineInBothHullPointIndices (l : Line) (v : list nat)
  (s : Members) : Members :=
  match l with
  | Line1 =>
      mkMembers (clouds s) (hull1PointIndices s) (hull2PointIndices s)
        v (line2InBothHullPointIndices s)
        (vector1 s) (vector2 s) (refPoint s)
  | Line2 =>
      mkMembers (clouds s) (hull1PointIndices s) (hull2PointIndices s)
        (line1InBothHullPointIndices s) v
        (vector1 s) (vector2 s) (refPoint s)
  end.

Definition set_basis (w1 w2 : Vector3d) (r : pcl.PointXYZ) (s : Members)
  : Members :=
  mkMembers (clouds s) (hull1PointIndices s) (hull2PointIndices s)
    (line1InBothHullPointIndices s) (line2InBothHullPointIndices s)
    w1 w2 r.

(** The members right after the constructor's initialiser list: every
    cloud allocated and empty, [vector1(1,0,0)], [vector2(0,1,0)],
    [refPoint(0,0,0)]. *)
Definition initial_members : Members :=
  mkMembers (fun _ => Some [])
    [] [] [] []
    (mkVector3d (mk_double 1 0) (S754_zero false) (S754_zero false))
    (mkVector3d (S754_zero false) (mk_double 1 0) (S754_zero false)) origin.

(* ------------------------------------------------------------------ *)
(** ** Methods as a state and outcome monad *)

(** A method either returns with the new members, ends the process with
    [exit(code)], or performs an undefined operation (dereferencing a null
    pointer, reading a vector out of range). *)
Inductive outcome (A : Type) :=
  | Done (v : A) (s : Members)
  | Exit (code : Z)
  | Undefined.

Arguments Done {A} v s.
Arguments Exit {A} code.
Arguments Undefined {A}.

Definition M (A : Type) := Members -> outcome A.

Definition ret {A} (v : A) : M A := fun s => Done v s.

Definition bind {A B} (m : M A) (k : A -> M B) : M B :=
  fun s => match m s with
           | Done v s' => k v s'
           | Exit c => Exit c
           | Undefined => Undefined
           end.

Notation "x <- m ;; k" := (bind m (fun x => k))
  (at level 61, m at next level, right associativity).
Notation "m ;; k" := (bind m (fun _ => k)) (at level 61, right associativity).

Definition modify (f : Members -> Members) : M unit :=
  fun s => Done tt (f s).

Definition exit_ {A} (code : Z) : M A := fun _ => Exit code.

Definition undefined {A} : M A := fun _ => Undefined.

(** [*member]: dereference a cloud member. *)
Definition deref (m : CloudMember) : M PointCloud :=
  fun s => match clouds s m with
           | Some cl => Done cl s
           | None => Undefined
           end.

(** Overwrite the cloud a member points to ([clear()] then [push_back]s). *)
Definition store (m : CloudMember) (cl : PointCloud) : M unit :=
  _ <- deref m ;; modify (set_cloud m (Some cl)).

(** [member.reset(); member = nullptr;]. *)
Definition reset (m : CloudMember) : M unit :=
  modify (set_cloud m None).

Definition get : M Members := fun s => Done s s.

(** What the caller of a method observes: the returned value, the exit
    status of the process, or an undefined operation. *)
Inductive observed (A : Type) :=
  | Returned (v : A)
  | Exited (code : Z)
  | Crashed.

Arguments Returned {A} v.
Arguments Exited {A} code.
Arguments Crashed {A}.

Definition observe {A} (o : outcome A) : observed A :=
  match o with
  | Done v _ => Returned v
  | Exit c => Exited c
  | Undefined => Crashed
  end.

(* ------------------------------------------------------------------ *)
(** ** Andrew's hull on a 2D cloud *)

(** [computeVerticesOfHullAndrews] declares each of its three loop counters
    as [uint64_t count;] without an initialiser.  The value such a counter
    starts from is whatever the object held; the model takes the three
    starting values as a parameter. *)
Record UninitCounters := mkUninitCounters {
  start_points : nat;    (** the loop filling [points] *)
  start_vertices : nat;  (** the loop filling [hullVertices] *)
  start_indices : nat    (** the loop filling [hullPointIndices] *)
}.

(** The counters as they would be with [count = 0]. *)
Definition zero_counters : UninitCounters := mkUninitCounters 0 0 0.

(** [for (uint64_t count; count < cloudIn->size(); count++)
      points.push_back({cloudIn->points[count].x, .y, count});] *)
Definition andrews_points (g : UninitCounters) (cl : PointCloud)
  : list (PointAndrews float) :=
  map (fun count =>
         mkPointAndrews (pcl.x (point_at cl count)) (pcl.y (point_at cl count))
           count)
      (seq (start_points g) (length cl - start_points g)).

(** [AndrewsConvex_hull(hullAndrews, points)]. *)
Definition andrews_hull (g : UninitCounters) (cl : PointCloud)
  : list (PointAndrews float) :=
  fst (AndrewsConvex_hull (andrews_points g cl)).

(** The loop filling [hullVertices] from [hullAndrews]. *)
Definition andrews_vertices (g : UninitCounters) (cl : PointCloud)
  : PointCloud :=
  map (fun q => pcl.mkPointXYZ (x q) (y q) fzero)
      (skipn (start_vertices g) (andrews_hull g cl)).

(** The loop filling [hullPointIndices.indices] from [hullAndrews]. *)
Definition andrews_indices (g : UninitCounters) (cl : PointCloud) : list Z :=
  map (fun q => static_cast_int (index q))
      (skipn (start_indices g) (andrews_hull g cl)).

(* ------------------------------------------------------------------ *)
(** ** The class [HullOverlap] *)

Section Engine.

(** The constructor's arguments, kept in [const] members. *)
Variables (line1 line2 : PointCloud) (a b c d : double).
Variable hullMethod : string.
Variables (alphaLine1 alphaLine2 : double).

(** pcl's primitives, used as they are:
    [pcl::ProjectInliers] with [SACMODEL_PLANE] projects each point of its
    input onto the plane [a x + b y + c z + d = 0];
    [pcl::isXYPointIn2DXYPolygon]; and [pcl::ConcaveHull] configured with
    [setKeepInformation(keep)] and [setAlpha(alpha)], whose [reconstruct]
    gives the vertices and [getHullPointIndices] the indices. *)
Variable projectPointOnPlane :
  double -> double -> double -> double -> pcl.PointXYZ -> pcl.PointXYZ.
Variable isXYPointIn2DXYPolygon : pcl.PointXYZ -> PointCloud -> bool.
Variable concaveHull : bool -> double -> PointCloud -> PointCloud * list Z.

(** What the uninitialised counters of [computeVerticesOfHullAndrews] hold
    in its call for hull #1 and for hull #2. *)
Variable uninit : Line -> UninitCounters.

(** The constructor's check of [hullMethod]. *)
Definition HullOverlap_ctor : M unit :=
  if negb (String.eqb hullMethod "PCL ConcaveHull")
     && negb (String.eqb hullMethod "Andrew's")
  then exit_ 1
  else ret tt.

(** [createCloudFromProjectionInPlane(cloudIn, cloudOut)]. *)
Definition createCloudFromProjectionInPlane (cloudIn : PointCloud)
  (cloudOut : CloudMember) : M unit :=
  store cloudOut (map (projectPointOnPlane a b c d) cloudIn).

(** [computeTwoVectorsAndRefPoint()]: [refPoint] is the first projected point
    of line #1, [vector1] the normalised difference from it to the last one,
    [vector2] the normalised [normalToPlane.cross(vector1)].  No check is
    made; reading [points[0]] of an empty cloud is undefined. *)
Definition computeTwoVectorsAndRefPoint : M unit :=
  l1 <- deref line1InPlane_ ;;
  match l1 with
  | [] => undefined
  | p0 :: _ =>
      let plast := last l1 p0 in
      let w := mkVector3d (float_to_double (fsub (pcl.x plast) (pcl.x p0)))
                          (float_to_double (fsub (pcl.y plast) (pcl.y p0)))
                          (float_to_double (fsub (pcl.z plast) (pcl.z p0))) in
      let w1 := vdiv w (norm w) in
      let normalToPlane := mkVector3d a b c in
      let w2' := vcross normalToPlane w1 in
      let w2 := vdiv w2' (norm w2') in
      modify (set_basis w1 w2 p0)
  end.

(** [(p.x - r.x) * w(0) + (p.y - r.y) * w(1) + (p.z - r.z) * w(2)]: the
    differences in [float], the rest in [double]. *)
Definition offset_along (r : pcl.PointXYZ) (w : Vector3d) (p : pcl.PointXYZ)
  : double :=
  dadd (dadd (dmul (float_to_double (fsub (pcl.x p) (pcl.x r))) (v0 w))
             (dmul (float_to_double (fsub (pcl.y p) (pcl.y r))) (v1 w)))
       (dmul (float_to_double (fsub (pcl.z p) (pcl.z r))) (v2 w)).

(** The 2D coordinates of a projected point: its offsets from [refPoint]
    along [vector1] and along [vector2], stored as [float]; [z] is set to
    0. *)
Definition pointInPlane2D (r : pcl.PointXYZ) (w1 w2 : Vector3d)
  (p : pcl.PointXYZ) : pcl.PointXYZ :=
  pcl.mkPointXYZ (double_to_float (offset_along r w1 p))
                 (double_to_float (offset_along r w2 p))
                 fzero.

(** [createCloudInPlane2D(cloudIn, cloudOut)]. *)
Definition createCloudInPlane2D (cloudIn cloudOut : CloudMember) : M unit :=
  s <- get ;;
  _ <- deref cloudOut ;;
  cl <- deref cloudIn ;;
  store cloudOut (map (pointInPlane2D (refPoint s) (vector1 s) (vector2 s)) cl).

(** [computeVerticesOfConcaveHull(cloudIn, alpha, hullVertices,
    hullPointIndices, keepInformation)]. *)
Definition computeVerticesOfConcaveHull (cloudIn : CloudMember) (alpha : double)
  (hullVertices : CloudMember) (l : Line) (keepInformation : bool) : M unit :=
  _ <- deref hullVertices ;;
  cl <- deref cloudIn ;;
  let r := concaveHull keepInformation alpha cl in
  store hullVertices (fst r) ;;
  if keepInformation then modify (set_hullPointIndices l (snd r)) else ret tt.

(** [computeVerticesOfHullAndrews(cloudIn, hullVertices, hullPointIndices,
    keepInformation)], its counters starting from [g]. *)
Definition computeVerticesOfHullAndrews (cloudIn hullVertices : CloudMember)
  (l : Line) (keepInformation : bool) (g : UninitCounters) : M unit :=
  cl <- deref cloudIn ;;
  store hullVertices (andrews_vertices g cl) ;;
  if keepInformation then modify (set_hullPointIndices l (andrews_indices g cl))
  else ret tt.

(** The loop body of the three [findPointsInHull*] methods reads
    [*hullVertices]; with no point to test it is never read.  Each test
    [pcl::isXYPointIn2DXYPolygon(point, *hullVertices)] starts by reading
    [polygon[nr_poly_points - 1]], the last vertex: with an empty hull that
    read is out of range.  [isXYPointIn2DXYPolygon] is only consulted on a
    non-empty polygon. *)
Definition hull_for (cl : PointCloud) (hullVertices : CloudMember)
  : M PointCloud :=
  match cl with
  | [] => ret []
  | _ =>
      hull <- deref hullVertices ;;
      match hull with
      | [] => undefined
      | _ => ret hull
      end
  end.

(** The positions of the points of a 2D cloud that lie in a hull. *)
Definition indices_in_hull (cl hull : PointCloud) : list nat :=
  filter (fun count => isXYPointIn2DXYPolygon (point_at cl count) hull)
         (seq 0 (length cl)).

(** [findPointsInHull(lineOriginal, cloudIn, cloudOut, indexPointInHull,
    hullVertices)]: returns the new contents of [*cloudOut]. *)
Definition findPointsInHull (lineOriginal : PointCloud) (cloudIn : CloudMember)
  (l : Line) (hullVertices : CloudMember) : M PointCloud :=
  cl <- deref cloudIn ;;
  hull <- hull_for cl hullVertices ;;
  let idx := indices_in_hull cl hull in
  modify (set_lineInBothHullPointIndices l idx) ;;
  ret (map (point_at lineOriginal) idx).

(** [findPointsInHullOnlyPointIndices(cloudIn, indexPointInHull,
    hullVertices)]. *)
Definition findPointsInHullOnlyPointIndices (cloudIn : CloudMember) (l : Line)
  (hullVertices : CloudMember) : M unit :=
  cl <- deref cloudIn ;;
  hull <- hull_for cl hullVertices ;;
  modify (set_lineInBothHullPointIndices l (indices_in_hull cl hull)).

(** [findPointsInHullOnlyPoints(lineOriginal, cloudIn, cloudOut,
    hullVertices)]: returns the new contents of [*cloudOut]. *)
Definition findPointsInHullOnlyPoints (lineOriginal : PointCloud)
  (cloudIn hullVertices : CloudMember) : M PointCloud :=
  cl <- deref cloudIn ;;
  hull <- hull_for cl hullVertices ;;
  ret (map (point_at lineOriginal) (indices_in_hull cl hull)).

(** [computeHullsAndPointsInBothHulls(line1InBothHull, line2InBothHull,
    minimalMemory)].  The two output clouds belong to the caller: [None] is a
    null pointer, [Some cl] a cloud with contents [cl]; the method returns the
    count pair together with the final contents of both output clouds. *)
Definition computeHullsAndPointsInBothHulls
  (line1InBothHull line2InBothHull : option PointCloud) (minimalMemory : bool)
  : M (nat * nat * option PointCloud * option PointCloud) :=
  let out1 := option_map (fun _ => []) line1InBothHull in
  let out2 := option_map (fun _ => []) line2InBothHull in
  createCloudFromProjectionInPlane line1 line1InPlane_ ;;
  computeTwoVectorsAndRefPoint ;;
  createCloudInPlane2D line1InPlane_ line1InPlane2D_ ;;
  (if minimalMemory then reset line1InPlane_ else ret tt) ;;
  createCloudFromProjectionInPlane line2 line2InPlane_ ;;
  createCloudInPlane2D line2InPlane_ line2InPlane2D_ ;;
  (if minimalMemory then reset line2InPlane_ else ret tt) ;;
  (if String.eqb hullMethod "PCL ConcaveHull" then
     computeVerticesOfConcaveHull line1InPlane2D_ alphaLine1 hull1Vertices_
       Line1 (negb minimalMemory) ;;
     computeVerticesOfConcaveHull line2InPlane2D_ alphaLine2 hull2Vertices_
       Line2 (negb minimalMemory)
   else if String.eqb hullMethod "Andrew's" then
     computeVerticesOfHullAndrews line1InPlane2D_ hull1Vertices_
       Line1 (negb minimalMemory) (uninit Line1) ;;
     computeVerticesOfHullAndrews line2InPlane2D_ hull2Vertices_
       Line2 (negb minimalMemory) (uninit Line2)
   else exit_ 1) ;;
  match line1InBothHull, line2InBothHull with
  | Some _, Some _ =>
      if minimalMemory then
        r1 <- findPointsInHullOnlyPoints line1 line1InPlane2D_ hull2Vertices_ ;;
        reset line1InPlane2D_ ;;
        reset hull2Vertices_ ;;
        r2 <- findPointsInHullOnlyPoints line2 line2InPlane2D_ hull1Vertices_ ;;
        reset line2InPlane2D_ ;;
        reset hull1Vertices_ ;;
        ret (length r1, length r2, Some r1, Some r2)
      else
        r1 <- findPointsInHull line1 line1InPlane2D_ Line1 hull2Vertices_ ;;
        r2 <- findPointsInHull line2 line2InPlane2D_ Line2 hull1Vertices_ ;;
        ret (length r1, length r2, Some r1, Some r2)
  | _, _ =>
      findPointsInHullOnlyPointIndices line1InPlane2D_ Line1 hull2Vertices_ ;;
      findPointsInHullOnlyPointIndices line2InPlane2D_ Line2 hull1Vertices_ ;;
      s <- get ;;
      ret (length (line1InBothHullPointIndices s),
           length (line2InBothHullPointIndices s), out1, out2)
  end.

(** [computePointsInBothHulls(line1InBothHull, line2InBothHull)]: the public
    entry point, [computeHullsAndPointsInBothHulls] with
    [minimalMemory = true]. *)
Definition computePointsInBothHulls
  (line1InBothHull line2InBothHull : option PointCloud)
  : M (nat * nat * option PointCloud * option PointCloud) :=
  computeHullsAndPointsInBothHulls line1InBothHull line2InBothHull true.

(** A fresh object: the constructor, then one call of
    [computeHullsAndPointsInBothHulls]. *)
Definition construct_and_compute
  (line1InBothHull line2InBothHull : option PointCloud) (minimalMemory : bool)
  : outcome (nat * nat * option PointCloud * option PointCloud) :=
  (HullOverlap_ctor ;;
   computeHullsAndPointsInBothHulls line1InBothHull line2InBothHull
     minimalMemory) initial_members.

End Engine.

(* ------------------------------------------------------------------ *)
(** ** Accessors *)

(** The guard shared by the line-scoped accessors:
    [lineNumber < 0 || lineNumber > 1].  (Each accessor also prints a
    message on [std::cout] when it fails; output is not modelled.) *)
Definition invalid_lineNumber (lineNumber : Z) : bool :=
  (lineNumber <? 0) || (1 <? lineNumber).

(** [getConstPtrlineInBothHullPointIndices(lineNumber)]: a pointer to a
    member, [None] for [nullptr]. *)
Definition getConstPtrlineInBothHullPointIndices (s : Members)
  (lineNumber : Z) : option (list nat) :=
  if invalid_lineNumber lineNumber then None
  else if lineNumber =? 0 then Some (line1InBothHullPointIndices s)
  else Some (line2InBothHullPointIndices s).

(** [getConstPtrlineInPlane2D(lineNumber)]: returns the member pointer. *)
Definition getConstPtrlineInPlane2D (s : Members) (lineNumber : Z)
  : option PointCloud :=
  if invalid_lineNumber lineNumber then None
  else if lineNumber =? 0 then clouds s line1InPlane2D_
  else clouds s line2InPlane2D_.

(** [getConstPtrlineInPlane3D(lineNumber)]. *)
Definition getConstPtrlineInPlane3D (s : Members) (lineNumber : Z)
  : option PointCloud :=
  if invalid_lineNumber lineNumber then None
  else if lineNumber =? 0 then clouds s line1InPlane_
  else clouds s line2InPlane_.

(** [getConstPtrVerticesIndices(lineNumber)]. *)
Definition getConstPtrVerticesIndices (s : Members) (lineNumber : Z)
  : option (list Z) :=
  if invalid_lineNumber lineNumber then None
  else if lineNumber =? 0 then Some (hull1PointIndices s)
  else Some (hull2PointIndices s).

(** [getNbPointsInOverlap(lineNumber)]. *)
Definition getNbPointsInOverlap (s : Members) (lineNumber : Z) : nat :=
  if invalid_lineNumber lineNumber then 0%nat
  else if lineNumber =? 0 then length (line1InBothHullPointIndices s)
  else length (line2InBothHullPointIndices s).

(* ------------------------------------------------------------------ *)
(** ** Bounding boxes of the overlap *)

(** [std::numeric_limits<double>::max()] and [::min()]; the latter is the
    smallest positive normal double, 2^-1022. *)
Definition DBL_MAX : double := mk_double (2 ^ 53 - 1) 971.
Definition DBL_MIN : double := mk_double 1 (-1022).

(** [if (v < vMin) vMin = v; if (v > vMax) vMax = v;] for one [float]
    coordinate [v] compared with [double] accumulators. *)
Definition minmax_update (acc : double * double) (v : float) : double * double :=
  let dv := float_to_double v in
  (if SFltb dv (fst acc) then dv else fst acc,
   if SFltb (snd acc) dv then dv else snd acc).

(** One iteration of the loops of [getMinMaxPointsInOverlapPlane2D]. *)
Definition minmax2_step (acc : (double * double) * (double * double))
  (p : pcl.PointXYZ) : (double * double) * (double * double) :=
  (minmax_update (fst acc) (pcl.x p), minmax_update (snd acc) (pcl.y p)).

(** [getMinMaxPointsInOverlapPlane2D(minPt, maxPt)]: returns [OK] and the new
    values of [minPt] and [maxPt]. *)
Definition getMinMaxPointsInOverlapPlane2D (minPt maxPt : pcl.PointXYZ)
  : M (bool * pcl.PointXYZ * pcl.PointXYZ) :=
  s <- get ;;
  match line1InBothHullPointIndices s, line2InBothHullPointIndices s with
  | (_ :: _) as i1, (_ :: _) as i2 =>
      c1 <- deref line1InPlane2D_ ;;
      c2 <- deref line2InPlane2D_ ;;
      let '((xMin, xMax), (yMin, yMax)) :=
        fold_left minmax2_step (map (point_at c2) i2)
          (fold_left minmax2_step (map (point_at c1) i1)
             ((DBL_MAX, DBL_MIN), (DBL_MAX, DBL_MIN))) in
      ret (true,
           pcl.mkPointXYZ (double_to_float xMin) (double_to_float yMin) fzero,
           pcl.mkPointXYZ (double_to_float xMax) (double_to_float yMax) fzero)
  | _, _ => ret (false, minPt, maxPt)
  end.

(** One iteration of the loops of [getMinMaxPointsInOverlapPlane3D]. *)
Definition minmax3_step
  (acc : (double * double) * (double * double) * (double * double))
  (p : pcl.PointXYZ)
  : (double * double) * (double * double) * (double * double) :=
  let '(ax, ay, az) := acc in
  (minmax_update ax (pcl.x p), minmax_update ay (pcl.y p),
   minmax_update az (pcl.z p)).

(** [getMinMaxPointsInOverlapPlane3D(minPt, maxPt)], over the projected 3D
    clouds. *)
Definition getMinMaxPointsInOverlapPlane3D (minPt maxPt : pcl.PointXYZ)
  : M (bool * pcl.PointXYZ * pcl.PointXYZ) :=
  s <- get ;;
  match line1InBothHullPointIndices s, line2InBothHullPointIndices s with
  | (_ :: _) as i1, (_ :: _) as i2 =>
      c1 <- deref line1InPlane_ ;;
      c2 <- deref line2InPlane_ ;;
      let '((xMin, xMax), (yMin, yMax), (zMin, zMax)) :=
        fold_left minmax3_step (map (point_at c2) i2)
          (fold_left minmax3_step (map (point_at c1) i1)
             ((DBL_MAX, DBL_MIN), (DBL_MAX, DBL_MIN), (DBL_MAX, DBL_MIN))) in
      ret (true,
           pcl.mkPointXYZ (double_to_float xMin) (double_to_float yMin)
             (double_to_float zMin),
           pcl.mkPointXYZ (double_to_float xMax) (double_to_float yMax)
             (double_to_float zMax))
  | _, _ => ret (false, minPt, maxPt)
  end.

(* ------------------------------------------------------------------ *)
(** ** Shape of the monotone chain *)

Section HullShape.

Context {C : Type} `{Coord C}.

(** Every three consecutive vertices [p, q, r] of a vertex list pass the
    pop test strictly: [cross(p, q, r) <= 0] is false, as computed. *)
Definition strict_turns (l : list (PointAndrews C)) : Prop :=
  forall i p q r,
    nth_error l i = Some p ->
    nth_error l (S i) = Some q ->
    nth_error l (S (S i)) = Some r ->
    cleb (cross p q r) czero = false.

(** The same property on the stack [hull[0..k-1]], read from its top. *)
Fixpoint ccw_stack (st : list (PointAndrews C)) : Prop :=
  match st with
  | r :: ((q :: p :: _) as rest) =>
      cleb (cross p q r) czero = false /\ ccw_stack rest
  | _ => True
  end.

End HullShape.

(** The exact rational value of a finite IEEE number (0 otherwise). *)
Definition value (v : spec_float) : Q :=
  match v with
  | S754_finite s m e => inject_Z (cond_Zopp s (Zpos m)) * Qpower (2 # 1) e
  | _ => 0%Q
  end.

(** The exact (unrounded) cross product of three binary32 points. *)
Definition exact_cross (O A B : PointAndrews float) : Q :=
  ((value (x A) - value (x O)) * (value (y B) - value (y O))
   - (value (y A) - value (y O)) * (value (x B) - value (x O)))%Q.

(** A binary32 point with its coordinates taken exactly. *)
Definition exact_point (p : PointAndrews float) : PointAndrews Q :=
  mkPointAndrews (value (x p)) (value (y p)) (index p).

(** A binary32 point [(a 2^ea, b 2^eb)] with an index. *)
Definition point_f (a ea b eb : Z) (i : nat) : PointAndrews float :=
  mkPointAndrews (mk_float a ea) (mk_float b eb) i.

(** Four binary32 points; the first three lie exactly on [y = 3x]. *)
Definition O5 : PointAndrews float := point_f 15 (-6) 45 (-6) 0.
Definition A5 : PointAndrews float := point_f 5248 0 15744 0 1.
Definition B5 : PointAndrews float := point_f 284672 0 854016 0 2.
Definition T5 : PointAndrews float := point_f 100000 0 1000000 0 3.

(* ------------------------------------------------------------------ *)
(** ** Concrete configurations *)

Definition dzero : double := S754_zero false.
Definition done : double := mk_double 1 0.

(** pcl's projection onto the plane [z = 0] (coefficients [0 0 1 0]). *)
Definition project_z0 (a b c d : double) (p : pcl.PointXYZ) : pcl.PointXYZ :=
  pcl.mkPointXYZ (pcl.x p) (pcl.y p) fzero.

(** A membership test accepting every point. *)
Definition inside_all (p : pcl.PointXYZ) (hull : PointCloud) : bool := true.

(** A concave hull with no vertex. *)
Definition no_concave (keep : bool) (alpha : double) (cl : PointCloud)
  : PointCloud * list Z := ([], []).

(** A point of [z = 0] with binary32 coordinates [(a, b)]. *)
Definition pt (a b : Z) : pcl.PointXYZ :=
  pcl.mkPointXYZ (mk_float a 0) (mk_float b 0) fzero.

(** The engine on the plane [z = 0] with the given method and counters. *)
Definition run_z0 (line1 line2 : PointCloud) (hullMethod : string)
  (g : Line -> UninitCounters)
  (out1 out2 : option PointCloud) (minimalMemory : bool)
  : outcome (nat * nat * option PointCloud * option PointCloud) :=
  construct_and_compute line1 line2 dzero dzero done dzero hullMethod
    dzero dzero project_z0 inside_all no_concave g out1 out2 minimalMemory.


(** A point with binary32 coordinates [(a, b, c)]. *)
Definition pt3 (a b c : Z) : pcl.PointXYZ :=
  pcl.mkPointXYZ (mk_float a 0) (mk_float b 0) (mk_float c 0).

(** Each line's overlap is its point #0, and all coordinates are negative:
    [(-1, -1, -1)] for line #1, [(-2, -2, -2)] for line #2. *)
Definition negative_overlap : Members :=
  mkMembers
    (fun m => match m with
              | line1InPlane_ | line1InPlane2D_ => Some [pt3 (-1) (-1) (-1)]
              | line2InPlane_ | line2InPlane2D_ => Some [pt3 (-2) (-2) (-2)]
              | _ => Some []
              end)
    [] [] [0%nat] [0%nat]
    (vector1 initial_members) (vector2 initial_members) origin.

(** [getMinMaxPointsInOverlapPlane3D] called on the object a run left. *)
Definition minmax3_after {A} (o : outcome A)
  : observed (bool * pcl.PointXYZ * pcl.PointXYZ) :=
  match o with
  | Done _ s => observe (getMinMaxPointsInOverlapPlane3D origin origin s)
  | Exit c => Exited c
  | Undefined => Crashed
  end.

(** The four corners of a square, in counter-clockwise order. *)
Definition sq4 : PointCloud := [pt 0 0; pt 2 0; pt 2 2; pt 0 2].

(** [computeVerticesOfHullAndrews(line1InPlane2D, hull1Vertices,
    hull1PointIndices, true)] on a fresh object whose [line1InPlane2D] holds
    [cl]: the new [*hull1Vertices] and [hull1PointIndices.indices]. *)
Definition hull1_after_andrews (g : UninitCounters) (cl : PointCloud)
  : option (option PointCloud * list Z) :=
  match computeVerticesOfHullAndrews line1InPlane2D_ hull1Vertices_ Line1 true g
          (set_cloud line1InPlane2D_ (Some cl) initial_members) with
  | Done _ s => Some (clouds s hull1Vertices_, hull1PointIndices s)
  | _ => None
  end.



(* ------------------------------------------------------------------ *)
(** ** pcl's hull primitives *)











(* ================================================================== *)
(** * Proofs *)

(* ------------------------------------------------------------------ *)
(** ** The monotone chain *)

Section HullProofs.

Context {C : Type} `{Coord C}.

Lemma pop_while_stop (t : nat) (st : list (PointAndrews C)) (p : PointAndrews C) :
  forall b a rest,
    pop_while t st p = b :: a :: rest ->
    Nat.leb t (length (b :: a :: rest)) = true ->
    cleb (cross a b p) czero = false.
Proof.
  induction st as [|b0 st1 IH]; intros b a rest Hp Ht; [discriminate|].
  destruct st1 as [|a0 st2]; [discriminate|].
  cbn [pop_while] in Hp.
  destruct (Nat.leb t (length (b0 :: a0 :: st2))) eqn:Et;
  destruct (cleb (cross a0 b0 p) czero) eqn:Ec; cbn [andb] in Hp.
  - exact (IH b a rest Hp Ht).
  - injection Hp as -> -> ->; exact Ec.
  - injection Hp as -> -> ->; rewrite Ht in Et; discriminate.
  - injection Hp as -> -> ->; exact Ec.
Qed.

(** The pops never reach below a base [R] shorter than the threshold. *)
Lemma pop_while_app (t : nat) (X R : list (PointAndrews C)) (p : PointAndrews C) :
  R <> [] -> (length R < t)%nat ->
  exists pre X', X = pre ++ X' /\ pop_while t (X ++ R) p = X' ++ R.
Proof.
  intros HR Hlt; induction X as [|x0 X1 IH].
  - exists [], []; split; [reflexivity|]; cbn.
    destruct R as [|b [|a R2]]; [congruence|reflexivity|].
    cbn [pop_while].
    replace (Nat.leb t (length (b :: a :: R2))) with false
      by (symmetry; apply Nat.leb_gt; exact Hlt).
    reflexivity.
  - destruct IH as [pre [X' [HX HP]]].
    cbn [app].
    destruct (X1 ++ R) as [|a st2] eqn:E.
    { destruct R; [congruence|]. destruct X1; discriminate. }
    cbn [pop_while].
    destruct (Nat.leb t (length (x0 :: a :: st2)) && cleb (cross a x0 p) czero).
    + exists (x0 :: pre), X'; split; [cbn; congruence|]. exact HP.
    + exists [], (x0 :: X1); split; [reflexivity|]. cbn; rewrite E; reflexivity.
Qed.

Lemma ccw_stack_suffix (pre st : list (PointAndrews C)) :
  ccw_stack (pre ++ st) -> ccw_stack st.
Proof.
  induction pre as [|r pre IH]; [tauto|].
  intro Hs; apply IH; cbn in Hs.
  destruct pre as [|q [|p pre']].
  - destruct st as [|q [|p st']]; cbn in *; tauto.
  - destruct st as [|p st']; cbn in *; tauto.
  - cbn in *; tauto.
Qed.

Lemma ccw_stack_nth (st : list (PointAndrews C)) :
  ccw_stack st ->
  forall i p q r,
    nth_error st i = Some r ->
    nth_error st (S i) = Some q ->
    nth_error st (S (S i)) = Some p ->
    cleb (cross p q r) czero = false.
Proof.
  induction st as [|r0 st IH]; intros Hs i p q r Hr Hq Hp;
    [destruct i; discriminate|].
  destruct st as [|q0 [|p0 st']]; [destruct i as [|[|i]]; discriminate
                                  | destruct i as [|[|i]]; discriminate |].
  destruct Hs as [Hc Hs].
  destruct i as [|i].
  - cbn in Hr, Hq, Hp; congruence.
  - exact (IH Hs i p q r Hr Hq Hp).
Qed.

Lemma ccw_stack_rev (st : list (PointAndrews C)) :
  ccw_stack st -> strict_turns (rev st).
Proof.
  intros Hs i p q r Hp Hq Hr.
  rewrite nth_error_rev in Hp, Hq, Hr.
  destruct (Nat.ltb_spec (S (S i)) (length st)) as [Hlt|]; [|discriminate].
  destruct (Nat.ltb_spec (S i) (length st)); [|lia].
  destruct (Nat.ltb_spec i (length st)); [|lia].
  apply (ccw_stack_nth st Hs (length st - S (S (S i)))%nat).
  - exact Hr.
  - replace (S (length st - S (S (S i)))) with (length st - S (S i))%nat by lia.
    exact Hq.
  - replace (S (S (length st - S (S (S i))))) with (length st - S i)%nat by lia.
    exact Hp.
Qed.

Lemma ccw_stack_cons (p : PointAndrews C) (Y : list (PointAndrews C)) :
  ccw_stack Y ->
  (forall b a rest, Y = b :: a :: rest -> cleb (cross a b p) czero = false) ->
  ccw_stack (p :: Y).
Proof.
  intros HY Hc; destruct Y as [|b [|a rest]]; cbn; auto.
  split; [eapply Hc; reflexivity | exact HY].
Qed.

(** One step of the lower loop keeps the stack turning strictly and never
    removes its bottom cell. *)
Lemma lower_step (s0 p : PointAndrews C) (st : list (PointAndrews C)) :
  ccw_stack st -> (exists m mid, st = m :: mid ++ [s0]) ->
  ccw_stack (chain_step 2 st p) /\
  exists m mid, chain_step 2 st p = m :: mid ++ [s0].
Proof.
  intros Hs [m [mid ->]].
  destruct (pop_while_app 2 (m :: mid) [s0] p) as [pre [X' [HX HP]]];
    [discriminate | cbn; lia |].
  unfold chain_step; cbn [app] in HP; rewrite HP.
  split; [|exists p, X'; reflexivity].
  apply ccw_stack_cons.
  - apply (ccw_stack_suffix pre).
    rewrite app_assoc, <- HX; exact Hs.
  - intros b a rest Hr. rewrite <- HP in Hr.
    apply (pop_while_stop 2 (m :: mid ++ [s0]) p b a rest Hr).
    cbn; reflexivity.
Qed.

(** One step of the upper loop, above the lower chain [m :: Lr]. *)
Lemma upper_step (m p : PointAndrews C) (Lr X : list (PointAndrews C)) :
  ccw_stack (X ++ [m]) ->
  exists X', chain_step (S (length (m :: Lr))) (X ++ m :: Lr) p
             = (p :: X') ++ m :: Lr
          /\ ccw_stack (p :: X' ++ [m]).
Proof.
  intros Hs.
  destruct (pop_while_app (S (length (m :: Lr))) X (m :: Lr) p)
    as [pre [X' [HX HP]]]; [discriminate | lia |].
  exists X'; unfold chain_step; rewrite HP; split; [reflexivity|].
  apply ccw_stack_cons.
  - apply (ccw_stack_suffix pre). rewrite app_assoc, <- HX; exact Hs.
  - intros b a rest Hr.
    destruct X' as [|b' X'']; [destruct rest; discriminate|].
    injection Hr as <- Hr.
    destruct (X'' ++ m :: Lr) as [|a' rest'] eqn:E; [destruct X''; discriminate|].
    assert (a' = a) as ->.
    { destruct X'' as [|c X3]; cbn in Hr, E; injection Hr; injection E; congruence. }
    apply (pop_while_stop _ _ p b' a rest' ltac:(rewrite HP; cbn [app]; rewrite E; reflexivity)).
    apply Nat.leb_le. rewrite <- E. cbn. rewrite length_app. cbn. lia.
Qed.

Lemma fold_left_invariant {A B : Type} (I : A -> Prop) (f : A -> B -> A) :
  (forall a b, I a -> I (f a b)) ->
  forall l a, I a -> I (fold_left f l a).
Proof.
  intros Hf l; induction l as [|b l IH]; intros a Ha; cbn; auto.
Qed.

Lemma lower_chain_shape (s0 s1 : PointAndrews C) (rest : list (PointAndrews C)) :
  ccw_stack (lower_chain (s0 :: s1 :: rest)) /\
  exists m mid, lower_chain (s0 :: s1 :: rest) = m :: mid ++ [s0].
Proof.
  unfold lower_chain; cbn [fold_left].
  apply (fold_left_invariant
           (fun st => ccw_stack st /\ exists m mid, st = m :: mid ++ [s0])).
  - intros st p [Hs Hsh]; exact (lower_step s0 p st Hs Hsh).
  - split; [cbn; exact I | exists s1, []; reflexivity].
Qed.

Lemma upper_fold (m : PointAndrews C) (Lr : list (PointAndrews C))
  (cands : list (PointAndrews C)) :
  exists X, fold_left (chain_step (S (length (m :: Lr)))) cands (m :: Lr)
            = X ++ m :: Lr /\ ccw_stack (X ++ [m]).
Proof.
  apply (fold_left_invariant
           (fun st => exists X, st = X ++ m :: Lr /\ ccw_stack (X ++ [m]))).
  - intros st p [X [-> Hs]].
    destruct (upper_step m p Lr X Hs) as [X' [HE HX']].
    exists (p :: X'); split; [exact HE | exact HX'].
  - exists []; split; [reflexivity | cbn; exact I].
Qed.

Lemma insert_PointAndrews_length (p : PointAndrews C) l :
  length (insert_PointAndrews p l) = S (length l).
Proof.
  induction l as [|q l IH]; cbn; [reflexivity|].
  destruct (lt_PointAndrews q p); cbn; congruence.
Qed.

Lemma sort_PointAndrews_length (l : list (PointAndrews C)) :
  length (sort_PointAndrews l) = length l.
Proof.
  induction l as [|p l IH]; cbn; [reflexivity|].
  rewrite insert_PointAndrews_length; unfold sort_PointAndrews in IH; congruence.
Qed.

End HullProofs.

(* ------------------------------------------------------------------ *)
(** ** Claims on [AndrewsConvex_hull] *)

(** C8: with at most three input points, [AndrewsConvex_hull] returns the
    input itself as the hull: same points, same multiplicities, same order
    (and leaves [points] unsorted). *)
Theorem AndrewsConvex_hull_small {C : Type} `{Coord C}
  (points : list (PointAndrews C)) :
  (length points <= 3)%nat -> fst (AndrewsConvex_hull points) = points.
Proof.
  intros Hn; unfold AndrewsConvex_hull.
  apply Nat.leb_le in Hn; rewrite Hn; reflexivity.
Qed.

Lemma AndrewsConvex_hull_small_witness :
  (length [O5; O5; A5] <= 3)%nat /\
  fst (AndrewsConvex_hull [O5; O5; A5]) = [O5; O5; A5].
Proof.
  split; [cbn; lia | apply AndrewsConvex_hull_small; cbn; lia].
Defined.

(** C5 (code bug): [cross] is documented to return zero for collinear
    points, and [coord2_t] is meant to hold its products, but the products
    are computed in [float].  Of four binary32 points, [O5], [A5], [B5] lie
    exactly on [y = 3x]: the exact cross product is [0], the rounded one is
    [512 > 0], so [A5] is not popped and the hull keeps three consecutive
    collinear vertices.  With the products taken exactly, [A5] is popped. *)
Lemma AndrewsConvex_hull_keeps_collinear :
  fst (AndrewsConvex_hull [O5; A5; B5; T5]) = [O5; A5; B5; T5] /\
  Qeq (exact_cross O5 A5 B5) 0 /\
  cross O5 A5 B5 = mk_float 512 0 /\
  fst (AndrewsConvex_hull (map exact_point [O5; A5; B5; T5]))
  = map exact_point [O5; B5; T5].
Proof.
  split; [vm_compute; reflexivity|].
  split; [vm_compute; reflexivity|].
  split; vm_compute; reflexivity.
Qed.

(** With more than three points, the hull is a lower chain
    [p0 :: mid ++ [m]] followed by an upper chain [upper]; every three
    consecutive vertices inside the lower chain, and inside the closed upper
    chain [m :: upper ++ [p0]], pass the pop test strictly (the computed
    [cross] is not [<= 0]).  The triples through the junction vertices are
    never tested. *)
Theorem AndrewsConvex_hull_turns {C : Type} `{Coord C}
  (points : list (PointAndrews C)) :
  (3 < length points)%nat ->
  exists p0 mid m upper,
    fst (AndrewsConvex_hull points) = p0 :: mid ++ m :: upper /\
    strict_turns (p0 :: mid ++ [m]) /\
    strict_turns (m :: upper ++ [p0]).
Proof.
  intros Hn; unfold AndrewsConvex_hull.
  replace (Nat.leb (length points) 3) with false
    by (symmetry; apply Nat.leb_gt; exact Hn).
  cbn [fst].
  pose proof (sort_PointAndrews_length points) as Hlen.
  destruct (sort_PointAndrews points) as [|s0 [|s1 rest]] eqn:Es;
    cbn in Hlen; try lia.
  destruct (lower_chain_shape s0 s1 rest) as [HL [m [mid' HLe]]].
  unfold upper_chain; rewrite HLe.
  replace (length (s0 :: s1 :: rest) - 1)%nat with (S (length rest)) by (cbn; lia).
  cbn [firstn rev].
  rewrite fold_left_app.
  destruct (upper_fold m (mid' ++ [s0]) (rev (firstn (length rest) (s1 :: rest))))
    as [X [HX HXs]].
  rewrite HX; cbn [fold_left].
  destruct (upper_step m s0 (mid' ++ [s0]) X HXs) as [X' [HE HX']].
  rewrite HE; cbn [tl app].
  exists s0, (rev mid'), m, (rev X'); split; [|split].
  - rewrite rev_app_distr; cbn. rewrite rev_app_distr; cbn.
    repeat rewrite <- app_assoc; reflexivity.
  - rewrite HLe in HL.
    replace (s0 :: rev mid' ++ [m]) with (rev (m :: mid' ++ [s0])).
    + exact (ccw_stack_rev _ HL).
    + cbn; rewrite rev_app_distr; reflexivity.
  - replace (m :: rev X' ++ [s0]) with (rev (s0 :: X' ++ [m])).
    + exact (ccw_stack_rev _ HX').
    + cbn; rewrite rev_app_distr; reflexivity.
Qed.

Lemma AndrewsConvex_hull_turns_witness :
  (3 < length [mkPointAndrews 0 0 0%nat; mkPointAndrews 2 0 1%nat;
               mkPointAndrews 2 2 2%nat; mkPointAndrews 0 2 3%nat])%nat /\
  exists p0 mid m upper,
    fst (AndrewsConvex_hull
           [mkPointAndrews 0 0 0%nat; mkPointAndrews 2 0 1%nat;
            mkPointAndrews 2 2 2%nat; mkPointAndrews 0 2 3%nat])
    = p0 :: mid ++ m :: upper /\
    strict_turns (p0 :: mid ++ [m]) /\
    strict_turns (m :: upper ++ [p0]).
Proof.
  split; [cbn; lia | apply AndrewsConvex_hull_turns; cbn; lia].
Defined.

(* ------------------------------------------------------------------ *)
(** ** Claims on the configuration and the accessors *)

(** C4 (counterexample): with the method ["convex"] the object cannot be
    built: the process ends with [exit(1)]; no value reaches the caller. *)
Lemma HullOverlap_invalid_method_exits :
  observe (run_z0 [pt 0 0; pt 1 0] [pt 0 1] "convex" (fun _ => zero_counters)
             (Some []) (Some []) false) = Exited 1.
Proof. vm_compute; reflexivity. Qed.

(** C4 (amended): for any method string other than ["PCL ConcaveHull"] and
    ["Andrew's"], building the engine ends the process with status 1,
    whatever the lines, plane, outputs and policy. *)
Theorem construct_and_compute_invalid_method
  line1 line2 a b c d hullMethod alphaLine1 alphaLine2
  projectPointOnPlane isXYPointIn2DXYPolygon concaveHull uninit
  out1 out2 minimalMemory :
  hullMethod <> "PCL ConcaveHull"%string ->
  hullMethod <> "Andrew's"%string ->
  construct_and_compute line1 line2 a b c d hullMethod alphaLine1 alphaLine2
    projectPointOnPlane isXYPointIn2DXYPolygon concaveHull uninit
    out1 out2 minimalMemory = Exit 1.
Proof.
  intros H1 H2.
  unfold construct_and_compute, HullOverlap_ctor.
  apply String.eqb_neq in H1, H2; rewrite H1, H2; reflexivity.
Qed.

Lemma construct_and_compute_invalid_method_witness :
  "convex"%string <> "PCL ConcaveHull"%string /\
  "convex"%string <> "Andrew's"%string /\
  run_z0 [pt 0 0] [] "convex" (fun _ => zero_counters) None None true = Exit 1.
Proof.
  split; [discriminate | split; [discriminate|]].
  apply construct_and_compute_invalid_method; discriminate.
Defined.




(* ------------------------------------------------------------------ *)
(** ** Running the engine *)

Lemma bind_Done_inv {A B} (m : M A) (k : A -> M B) s v s' :
  bind m k s = Done v s' ->
  exists u s1, m s = Done u s1 /\ k u s1 = Done v s'.
Proof.
  unfold bind; destruct (m s) as [u s1| |]; try discriminate.
  intros E; exists u, s1; split; [reflexivity | exact E].
Qed.

(** Step over the first action of a sequence that completed. *)
Ltac peel H :=
  apply bind_Done_inv in H; destruct H as (? & ? & _ & H); cbv beta in H.

(** C10: when at least one of the two output clouds is [nullptr], a call
    of [computeHullsAndPointsInBothHulls] that returns leaves the caller's
    non-null output cleared and never filled, and returns as counts the sizes
    of the two per-line index lists it computed (those the accessors then
    report). *)
Theorem computeHulls_one_null_output
  line1 line2 a b c d hullMethod alphaLine1 alphaLine2
  projectPointOnPlane isXYPointIn2DXYPolygon concaveHull uninit
  out1 out2 minimalMemory (s : Members) :
  out1 = None \/ out2 = None ->
  match computeHullsAndPointsInBothHulls line1 line2 a b c d hullMethod
          alphaLine1 alphaLine2 projectPointOnPlane isXYPointIn2DXYPolygon
          concaveHull uninit out1 out2 minimalMemory s with
  | Done (n1, n2, o1, o2) s' =>
      o1 = option_map (fun _ => []) out1 /\
      o2 = option_map (fun _ => []) out2 /\
      n1 = length (line1InBothHullPointIndices s') /\
      n2 = length (line2InBothHullPointIndices s') /\
      n1 = getNbPointsInOverlap s' 0 /\
      n2 = getNbPointsInOverlap s' 1
  | _ => True
  end.
Proof.
  intros Hnull.
  destruct (computeHullsAndPointsInBothHulls _ _ _ _ _ _ _ _ _ _ _ _ _ _ _ _ s)
    as [[[[n1 n2] o1] o2] s'| |] eqn:E; [|exact I|exact I].
  unfold computeHullsAndPointsInBothHulls in E.
  do 8 peel E.
  assert (Hm : match out1, out2 with Some _, Some _ => False | _, _ => True end)
    by (destruct Hnull as [-> | ->]; [|destruct out1]; exact I).
  destruct out1 as [c1|], out2 as [c2|]; try contradiction;
    do 2 peel E;
    apply bind_Done_inv in E; destruct E as (u & s2 & Hg & E);
    unfold get in Hg; injection Hg as <- <-;
    unfold ret in E; injection E as <- <- <- <- <-;
    repeat split.
Qed.

Lemma computeHulls_one_null_output_witness :
  (Some [pt 5 5] = None \/ (None : option PointCloud) = None) /\
  (exists v, observe (computeHullsAndPointsInBothHulls
     [pt 0 0; pt 1 0; pt 1 1] [pt 0 1] dzero dzero done dzero "Andrew's"
     dzero dzero project_z0 inside_all no_concave (fun _ => zero_counters)
     (Some [pt 5 5]) None false initial_members) = Returned v) /\
  match computeHullsAndPointsInBothHulls [pt 0 0; pt 1 0; pt 1 1] [pt 0 1]
          dzero dzero done dzero "Andrew's" dzero dzero project_z0 inside_all
          no_concave (fun _ => zero_counters) (Some [pt 5 5]) None false
          initial_members with
  | Done (n1, n2, o1, o2) s' =>
      o1 = option_map (fun _ => []) (Some [pt 5 5]) /\
      o2 = option_map (fun _ => []) (None : option PointCloud) /\
      n1 = length (line1InBothHullPointIndices s') /\
      n2 = length (line2InBothHullPointIndices s') /\
      n1 = getNbPointsInOverlap s' 0 /\
      n2 = getNbPointsInOverlap s' 1
  | _ => True
  end.
Proof.
  split; [right; reflexivity|].
  split; [eexists; vm_compute; reflexivity|].
  apply computeHulls_one_null_output; right; reflexivity.
Defined.

(* ------------------------------------------------------------------ *)
(** ** Bounding boxes *)

(** C7 (code bug): the maxima start from [numeric_limits<double>::min()],
    the smallest positive double, not from the lowest one.  With both
    overlaps non-empty and every coordinate negative, the true maxima are
    [x = y = z = -1], but both methods report [0]; the minima
    [(-2, -2, -2)] are right.  The same happens after a run of the engine
    on lines of the plane [z = 0] with negative coordinates, where the
    overlap maxima are [x = y = -1]. *)
Theorem getMinMaxPoints_negative_coordinates :
  observe (getMinMaxPointsInOverlapPlane2D origin origin negative_overlap)
  = Returned (true, pcl.mkPointXYZ (mk_float (-2) 0) (mk_float (-2) 0) fzero,
              pcl.mkPointXYZ fzero fzero fzero) /\
  observe (getMinMaxPointsInOverlapPlane3D origin origin negative_overlap)
  = Returned (true, pt3 (-2) (-2) (-2), pcl.mkPointXYZ fzero fzero fzero) /\
  double_to_float DBL_MIN = fzero /\
  minmax3_after (run_z0 [pt (-1) (-1); pt (-3) (-1)] [pt (-2) (-2)]
                   "Andrew's" (fun _ => zero_counters) (Some []) (Some []) false)
  = Returned (true, pcl.mkPointXYZ (mk_float (-3) 0) (mk_float (-2) 0) fzero,
              pcl.mkPointXYZ fzero fzero fzero).
Proof. vm_compute; repeat split. Qed.

(* ------------------------------------------------------------------ *)
(** ** Hull vertices and their indices *)

Section Trace.

Context {C : Type} `{Coord C}.

Lemma pop_while_incl t (st : list (PointAndrews C)) p q :
  In q (pop_while t st p) -> In q st.
Proof.
  induction st as [|b st IH]; intros Hq; [exact Hq|].
  destruct st as [|a st']; [exact Hq|].
  cbn [pop_while] in Hq.
  destruct (Nat.leb t (length (b :: a :: st')) && cleb (cross a b p) czero);
    [right; exact (IH Hq) | exact Hq].
Qed.

Lemma chain_fold_incl t (l st : list (PointAndrews C)) q :
  In q (fold_left (chain_step t) l st) -> In q l \/ In q st.
Proof.
  revert st; induction l as [|p l IH]; intros st Hq; cbn in *; [tauto|].
  destruct (IH _ Hq) as [Hl | [-> | Hs]]; [tauto | tauto |].
  right; exact (pop_while_incl t st p q Hs).
Qed.

Lemma insert_PointAndrews_incl (p : PointAndrews C) r q :
  In q (insert_PointAndrews p r) -> p = q \/ In q r.
Proof.
  induction r as [|a r IHr]; cbn; [tauto|].
  destruct (lt_PointAndrews a p); cbn; [|tauto].
  intros [<-|Hq]; [tauto|]. destruct (IHr Hq); tauto.
Qed.

Lemma sort_PointAndrews_incl (l : list (PointAndrews C)) q :
  In q (sort_PointAndrews l) -> In q l.
Proof.
  unfold sort_PointAndrews.
  induction l as [|p l IH]; cbn; [tauto|].
  intros Hq; destruct (insert_PointAndrews_incl _ _ _ Hq); intuition.
Qed.

(** Every vertex of the hull is one of the input points. *)
Lemma AndrewsConvex_hull_incl (points : list (PointAndrews C)) q :
  In q (fst (AndrewsConvex_hull points)) -> In q points.
Proof.
  unfold AndrewsConvex_hull; destruct (Nat.leb (length points) 3); [tauto|].
  cbn [fst]; intros Hq.
  apply in_rev in Hq.
  assert (Ht : forall l (q : PointAndrews C), In q (tl l) -> In q l)
    by (intros [|? ?] ? ?; cbn; tauto).
  apply Ht in Hq; unfold upper_chain in Hq.
  apply sort_PointAndrews_incl.
  destruct (chain_fold_incl _ _ _ _ Hq) as [Hc | Hl].
  - apply in_rev in Hc.
    rewrite <- (firstn_skipn (length (sort_PointAndrews points) - 1)
                             (sort_PointAndrews points)).
    apply in_or_app; left; exact Hc.
  - unfold lower_chain in Hl.
    destruct (chain_fold_incl _ _ _ _ Hl) as [Hs | []]; exact Hs.
Qed.

End Trace.

Lemma andrews_points_index (g : UninitCounters) (cl : PointCloud) q :
  In q (andrews_points g cl) ->
  (index q < length cl)%nat /\
  x q = pcl.x (point_at cl (index q)) /\
  y q = pcl.y (point_at cl (index q)).
Proof.
  unfold andrews_points; intros Hq.
  apply in_map_iff in Hq; destruct Hq as [n [<- Hn]].
  apply in_seq in Hn; cbn; repeat split; lia.
Qed.

(** With counters starting from [0], the vertex list and the index list are
    parallel, and each recorded index names an input position holding the
    vertex's [x] and [y]. *)
Lemma andrews_zero_counters_trace (cl : PointCloud) :
  length (andrews_vertices zero_counters cl)
  = length (andrews_indices zero_counters cl) /\
  forall i v k,
    nth_error (andrews_vertices zero_counters cl) i = Some v ->
    nth_error (andrews_indices zero_counters cl) i = Some k ->
    exists n, k = static_cast_int n /\ (n < length cl)%nat /\
              pcl.x v = pcl.x (point_at cl n) /\
              pcl.y v = pcl.y (point_at cl n).
Proof.
  unfold andrews_vertices, andrews_indices; cbn [start_vertices start_indices
    zero_counters skipn].
  split; [rewrite !length_map; reflexivity|].
  intros i v k Hv Hk.
  rewrite nth_error_map in Hv, Hk.
  destruct (nth_error (andrews_hull zero_counters cl) i) as [q|] eqn:Eq;
    [|discriminate].
  injection Hv as <-; injection Hk as <-.
  apply nth_error_In in Eq.
  destruct (andrews_points_index zero_counters cl q
              (AndrewsConvex_hull_incl _ q Eq)) as (Hlt & Hx & Hy).
  exists (index q); cbn; repeat split; assumption.
Qed.

(** C2 (code bug): the three loops of [computeVerticesOfHullAndrews] start
    from uninitialised counters.  Counters starting from [0] give the
    square's four corners with indices [0..3]; if the index loop's counter
    starts from [1], four vertices come with three indices, and index #0
    names corner #1 while vertex #0 is corner #0; if the first loop's
    counter starts from [1], corner #0 is left out of the hull. *)
Theorem computeVerticesOfHullAndrews_uninit_counters :
  hull1_after_andrews zero_counters sq4 = Some (Some sq4, [0; 1; 2; 3]) /\
  hull1_after_andrews (mkUninitCounters 0 0 1) sq4
  = Some (Some sq4, [1; 2; 3]) /\
  hull1_after_andrews (mkUninitCounters 1 0 0) sq4
  = Some (Some [pt 2 0; pt 2 2; pt 0 2], [1; 2; 3]).
Proof. vm_compute; repeat split. Qed.

(* ------------------------------------------------------------------ *)
(** ** The 2D basis *)









(* ------------------------------------------------------------------ *)
(** ** Whole runs *)

(** Run the methods symbolically, keeping pcl's primitives, the hull
    computations and the IEEE arithmetic folded. *)
Ltac run_engine :=
  lazy beta iota zeta delta [construct_and_compute HullOverlap_ctor
    computeHullsAndPointsInBothHulls bind ret modify exit_ undefined deref
    store reset get createCloudFromProjectionInPlane
    computeTwoVectorsAndRefPoint createCloudInPlane2D
    computeVerticesOfConcaveHull computeVerticesOfHullAndrews hull_for
    findPointsInHull findPointsInHullOnlyPointIndices
    findPointsInHullOnlyPoints set_cloud set_hullPointIndices
    set_lineInBothHullPointIndices set_basis initial_members CloudMember_eqb
    map option_map String.eqb Ascii.eqb Bool.eqb negb andb orb
    indices_in_hull filter seq length clouds hull1PointIndices
    hull2PointIndices line1InBothHullPointIndices line2InBothHullPointIndices
    vector1 vector2 refPoint getNbPointsInOverlap invalid_lineNumber Z.ltb
    Z.eqb Z.compare observe].

Lemma ctor_exit line1 line2 a b c d hullMethod alphaLine1 alphaLine2
  projectPointOnPlane isXYPointIn2DXYPolygon concaveHull uninit
  out1 out2 minimalMemory :
  hullMethod <> "PCL ConcaveHull"%string -> hullMethod <> "Andrew's"%string ->
  construct_and_compute line1 line2 a b c d hullMethod alphaLine1 alphaLine2
    projectPointOnPlane isXYPointIn2DXYPolygon concaveHull uninit
    out1 out2 minimalMemory = Exit 1.
Proof.
  intros H1 H2; unfold construct_and_compute, HullOverlap_ctor.
  apply String.eqb_neq in H1, H2; rewrite H1, H2; reflexivity.
Qed.

(** With no point, Andrew's method gives no hull vertex, whatever its
    counters start from. *)
Lemma andrews_vertices_nil (g : UninitCounters) : andrews_vertices g [] = [].
Proof.
  unfold andrews_vertices, andrews_hull, andrews_points.
  cbn [length]; rewrite Nat.sub_0_l; cbn; rewrite skipn_nil; reflexivity.
Qed.

(** C6 (code bug): an empty line is not handled.  With line #1 empty, the
    basis step reads [points[0]] of an empty cloud.  With line #2 empty,
    hull #2 has no vertex (Andrew's method always; pcl's concave hull when it
    finds none in the empty cloud), and the first test of a point of
    line #1 against it reads the last vertex of an empty polygon.  Either
    way a fresh engine performs an undefined read, for every plane, policy
    and pair of outputs, instead of reporting a zero overlap. *)
Theorem construct_and_compute_empty_line_undefined
  line1 line2 a b c d hullMethod alphaLine1 alphaLine2
  projectPointOnPlane isXYPointIn2DXYPolygon concaveHull uninit
  out1 out2 minimalMemory :
  (line1 = [] \/ line2 = []) ->
  (hullMethod = "Andrew's"%string \/
   (hullMethod = "PCL ConcaveHull"%string /\
    forall keep, fst (concaveHull keep alphaLine2 []) = [])) ->
  construct_and_compute line1 line2 a b c d hullMethod alphaLine1 alphaLine2
    projectPointOnPlane isXYPointIn2DXYPolygon concaveHull uninit
    out1 out2 minimalMemory = Undefined.
Proof.
  intros Hl Hm.
  destruct Hm as [-> | [-> Hc]];
  (destruct Hl as [-> | ->]; [|destruct line1 as [|p rest]]);
  destruct out1, out2, minimalMemory; run_engine;
  rewrite ?andrews_vertices_nil, ?Hc; reflexivity.
Qed.

Lemma construct_and_compute_empty_line_undefined_witness :
  ([pt 0 0] = [] \/ ([] : PointCloud) = []) /\
  ("Andrew's"%string = "Andrew's"%string \/
   ("Andrew's"%string = "PCL ConcaveHull"%string /\
    forall keep, fst (no_concave keep dzero []) = [])) /\
  run_z0 [pt 0 0] [] "Andrew's" (fun _ => zero_counters) (Some []) None true
  = Undefined.
Proof.
  split; [right; reflexivity|]. split; [left; reflexivity|].
  apply construct_and_compute_empty_line_undefined;
    [right; reflexivity | left; reflexivity].
Defined.


(** With Andrew's method, when the counters of
    [computeVerticesOfHullAndrews] start from the same values in both runs,
    a fresh engine in minimal-memory mode is observed exactly as in full
    mode, for every lines, plane, alphas, pcl primitives and outputs: same
    counts and overlap clouds, or the same undefined read. *)
Theorem computeHulls_andrews_modes_agree
  line1 line2 a b c d alphaLine1 alphaLine2
  projectPointOnPlane isXYPointIn2DXYPolygon concaveHull uninit out1 out2 :
  observe (construct_and_compute line1 line2 a b c d "Andrew's" alphaLine1
             alphaLine2 projectPointOnPlane isXYPointIn2DXYPolygon concaveHull
             uninit out1 out2 true)
  = observe (construct_and_compute line1 line2 a b c d "Andrew's" alphaLine1
               alphaLine2 projectPointOnPlane isXYPointIn2DXYPolygon
               concaveHull uninit out1 out2 false).
Proof.
  destruct line1 as [|p1 r1], line2 as [|p2 r2], out1, out2; run_engine;
  repeat match goal with
         | |- context [match ?h with [] => _ | _ :: _ => _ end] =>
             destruct h
         end; reflexivity.
Qed.

(* ------------------------------------------------------------------ *)
(** ** Steps of the engine, one at a time *)

Section Steps.
Variables (a b c d : double) (projectPointOnPlane :
  double -> double -> double -> double -> pcl.PointXYZ -> pcl.PointXYZ).
Variable isXY : pcl.PointXYZ -> PointCloud -> bool.
Variable concaveHull : bool -> double -> PointCloud -> PointCloud * list Z.

Lemma deref_Done m s cl s' :
  deref m s = Done cl s' -> clouds s m = Some cl /\ s' = s.
Proof. unfold deref; destruct (clouds s m); intros E; inversion E; auto. Qed.

Lemma store_Done m cl s u s' :
  store m cl s = Done u s' -> s' = set_cloud m (Some cl) s.
Proof.
  unfold store, bind, modify, deref; destruct (clouds s m); intros E;
    inversion E; reflexivity.
Qed.

Lemma reset_Done m s u s' : reset m s = Done u s' -> s' = set_cloud m None s.
Proof. unfold reset, modify; intros E; inversion E; reflexivity. Qed.

Lemma ret_Done {A} (v : A) s v' s' : ret v s = Done v' s' -> v' = v /\ s' = s.
Proof. unfold ret; intros E; inversion E; auto. Qed.

Lemma createCloudFromProjectionInPlane_Done cin cout s u s' :
  createCloudFromProjectionInPlane a b c d projectPointOnPlane cin cout s
  = Done u s' ->
  s' = set_cloud cout (Some (map (projectPointOnPlane a b c d) cin)) s.
Proof. apply store_Done. Qed.

Lemma computeTwoVectorsAndRefPoint_Done s u s' :
  computeTwoVectorsAndRefPoint a b c s = Done u s' ->
  exists w1 w2 r, s' = set_basis w1 w2 r s.
Proof.
  unfold computeTwoVectorsAndRefPoint, bind, deref, modify, undefined.
  destruct (clouds s line1InPlane_) as [[|p l]|]; intros E; inversion E.
  eauto.
Qed.

Lemma createCloudInPlane2D_Done cin cout s u s' :
  createCloudInPlane2D cin cout s = Done u s' ->
  exists cl, clouds s cin = Some cl /\
    s' = set_cloud cout
           (Some (map (pointInPlane2D (refPoint s) (vector1 s) (vector2 s)) cl))
           s.
Proof.
  unfold createCloudInPlane2D, bind, get.
  destruct (deref cout s) as [v1 s1| |] eqn:E1; try discriminate.
  apply deref_Done in E1 as [_ ->].
  destruct (deref cin s) as [v2 s2| |] eqn:E2; try discriminate.
  apply deref_Done in E2 as [E2 ->].
  intros E; apply store_Done in E; eauto.
Qed.

Lemma computeVerticesOfConcaveHull_Done cin alpha hv l keep s u s' :
  computeVerticesOfConcaveHull concaveHull cin alpha hv l keep s = Done u s' ->
  exists cl, clouds s cin = Some cl /\
    s' = (if keep then set_hullPointIndices l (snd (concaveHull keep alpha cl))
          else fun s => s)
           (set_cloud hv (Some (fst (concaveHull keep alpha cl))) s).
Proof.
  unfold computeVerticesOfConcaveHull, bind.
  destruct (deref hv s) as [v1 s1| |] eqn:E1; try discriminate.
  apply deref_Done in E1 as [_ ->].
  destruct (deref cin s) as [v2 s2| |] eqn:E2; try discriminate.
  apply deref_Done in E2 as [E2 ->].
  destruct (store hv _ s) as [v3 s3| |] eqn:E3; try discriminate.
  apply store_Done in E3 as ->.
  exists v2; split; [exact E2|].
  destruct keep; unfold modify, ret in *; intros;
    match goal with H : Done _ _ = Done _ _ |- _ => inversion H; reflexivity end.
Qed.

Lemma computeVerticesOfHullAndrews_Done cin hv l keep g s u s' :
  computeVerticesOfHullAndrews cin hv l keep g s = Done u s' ->
  exists cl, clouds s cin = Some cl /\
    s' = (if keep then set_hullPointIndices l (andrews_indices g cl)
          else fun s => s)
           (set_cloud hv (Some (andrews_vertices g cl)) s).
Proof.
  unfold computeVerticesOfHullAndrews, bind.
  destruct (deref cin s) as [v2 s2| |] eqn:E2; try discriminate.
  apply deref_Done in E2 as [E2 ->].
  destruct (store hv _ s) as [v3 s3| |] eqn:E3; try discriminate.
  apply store_Done in E3 as ->.
  exists v2; split; [exact E2|].
  destruct keep; unfold modify, ret in *; intros;
    match goal with H : Done _ _ = Done _ _ |- _ => inversion H; reflexivity end.
Qed.

Lemma hull_for_Done cl hv s h s' :
  hull_for cl hv s = Done h s' -> s' = s.
Proof.
  unfold hull_for, ret; destruct cl; [intros E; inversion E; reflexivity|].
  unfold bind; destruct (deref hv s) as [h' s1| |] eqn:E1; try discriminate.
  apply deref_Done in E1 as [_ ->].
  destruct h'; [discriminate|]; intros E; inversion E; reflexivity.
Qed.

Lemma findPointsInHull_Done lo cin l hv s r s' :
  findPointsInHull isXY lo cin l hv s = Done r s' ->
  exists cl hull, clouds s cin = Some cl /\
    r = map (point_at lo) (indices_in_hull isXY cl hull) /\
    s' = set_lineInBothHullPointIndices l (indices_in_hull isXY cl hull) s.
Proof.
  unfold findPointsInHull, bind.
  destruct (deref cin s) as [cl s1| |] eqn:E1; try discriminate.
  apply deref_Done in E1 as [E1 ->].
  destruct (hull_for cl hv s) as [h s2| |] eqn:E2; try discriminate.
  apply hull_for_Done in E2 as ->.
  unfold modify, ret; intros E; inversion E; eauto.
Qed.

Lemma findPointsInHullOnlyPointIndices_Done cin l hv s u s' :
  findPointsInHullOnlyPointIndices isXY cin l hv s = Done u s' ->
  exists cl hull, clouds s cin = Some cl /\
    s' = set_lineInBothHullPointIndices l (indices_in_hull isXY cl hull) s.
Proof.
  unfold findPointsInHullOnlyPointIndices, bind.
  destruct (deref cin s) as [cl s1| |] eqn:E1; try discriminate.
  apply deref_Done in E1 as [E1 ->].
  destruct (hull_for cl hv s) as [h s2| |] eqn:E2; try discriminate.
  apply hull_for_Done in E2 as ->.
  unfold modify; intros E; inversion E; eauto.
Qed.

Lemma findPointsInHullOnlyPoints_Done lo cin hv s r s' :
  findPointsInHullOnlyPoints isXY lo cin hv s = Done r s' ->
  exists cl hull, clouds s cin = Some cl /\
    r = map (point_at lo) (indices_in_hull isXY cl hull) /\ s' = s.
Proof.
  unfold findPointsInHullOnlyPoints, bind.
  destruct (deref cin s) as [cl s1| |] eqn:E1; try discriminate.
  apply deref_Done in E1 as [E1 ->].
  destruct (hull_for cl hv s) as [h s2| |] eqn:E2; try discriminate.
  apply hull_for_Done in E2 as ->.
  unfold ret; intros E; inversion E; subst; exists cl, h; auto.
Qed.

End Steps.

Lemma seq_StronglySorted (start len : nat) :
  StronglySorted Nat.lt (seq start len).
Proof.
  revert start; induction len as [|len IH]; intros start; simpl;
    constructor; [apply IH|].
  apply Forall_forall; intros i Hi; apply in_seq in Hi; lia.
Qed.

Lemma filter_StronglySorted {A} (R : A -> A -> Prop) (f : A -> bool) l :
  StronglySorted R l -> StronglySorted R (filter f l).
Proof.
  induction 1 as [|a l Hs IH Hf]; simpl; [constructor|].
  destruct (f a); [|exact IH].
  constructor; [exact IH|].
  apply Forall_forall; intros b Hb; apply filter_In in Hb.
  eapply Forall_forall in Hf; [exact Hf | apply Hb].
Qed.

Lemma indices_in_hull_sorted isXY cl hull :
  StronglySorted Nat.lt (indices_in_hull isXY cl hull).
Proof. apply filter_StronglySorted, seq_StronglySorted. Qed.

Lemma indices_in_hull_bound isXY cl hull :
  Forall (fun i => (i < length cl)%nat) (indices_in_hull isXY cl hull).
Proof.
  apply Forall_forall; intros i Hi; apply filter_In in Hi.
  destruct Hi as [Hi _]; apply in_seq in Hi; lia.
Qed.




Lemma get_Done s v s' : get s = Done v s' -> v = s /\ s' = s.
Proof. unfold get; intros E; inversion E; auto. Qed.

Lemma exit_not_Done {A} code s (v : A) s' : exit_ code s = Done v s' -> False.
Proof. discriminate. Qed.

Ltac crunch E :=
  cbv beta iota in E;
  lazymatch type of E with
  | bind _ _ _ = Done _ _ =>
      let H := fresh "Hs" in
      apply bind_Done_inv in E; destruct E as (? & ? & H & E); cbv beta in E;
      crunch H; crunch E
  | (if ?b then _ else _) _ = Done _ _ => revert E; destruct b; intro E; crunch E
  | exit_ _ _ = Done _ _ => destruct (exit_not_Done _ _ _ _ E)
  | createCloudFromProjectionInPlane _ _ _ _ _ _ _ _ = Done _ _ =>
      apply createCloudFromProjectionInPlane_Done in E
  | computeTwoVectorsAndRefPoint _ _ _ _ = Done _ _ =>
      apply computeTwoVectorsAndRefPoint_Done in E; destruct E as (? & ? & ? & E)
  | createCloudInPlane2D _ _ _ = Done _ _ =>
      let Hc := fresh "Hcl" in
      apply createCloudInPlane2D_Done in E; destruct E as (? & Hc & E)
  | reset _ _ = Done _ _ => apply reset_Done in E
  | ret _ _ = Done _ _ =>
      let Hv := fresh "Hv" in apply ret_Done in E; destruct E as [Hv E]
  | get _ = Done _ _ =>
      let Hv := fresh "Hv" in apply get_Done in E; destruct E as [Hv E]
  | computeVerticesOfConcaveHull _ _ _ _ _ _ _ = Done _ _ =>
      let Hc := fresh "Hcl" in
      apply computeVerticesOfConcaveHull_Done in E; destruct E as (? & Hc & E)
  | computeVerticesOfHullAndrews _ _ _ _ _ _ = Done _ _ =>
      let Hc := fresh "Hcl" in
      apply computeVerticesOfHullAndrews_Done in E; destruct E as (? & Hc & E)
  | findPointsInHull _ _ _ _ _ _ = Done _ _ =>
      let Hc := fresh "Hcl" in let Hr := fresh "Hr" in
      apply findPointsInHull_Done in E; destruct E as (? & ? & Hc & Hr & E)
  | findPointsInHullOnlyPointIndices _ _ _ _ _ = Done _ _ =>
      let Hc := fresh "Hcl" in
      apply findPointsInHullOnlyPointIndices_Done in E;
      destruct E as (? & ? & Hc & E)
  | findPointsInHullOnlyPoints _ _ _ _ _ = Done _ _ =>
      let Hc := fresh "Hcl" in let Hr := fresh "Hr" in
      apply findPointsInHullOnlyPoints_Done in E; destruct E as (? & ? & Hc & Hr & E)
  | _ => idtac
  end.

Ltac settle_hyps :=
  subst;
  repeat match goal with
  | H : clouds _ _ = Some _ |- _ =>
      cbn [clouds set_cloud set_basis set_hullPointIndices
           set_lineInBothHullPointIndices CloudMember_eqb negb] in H;
      injection H as H; subst
  end.

Ltac returned :=
  match goal with
  | H : (_, _, _, _) = (_, _, _, _) |- _ => injection H as -> -> -> ->
  end.

Ltac accessors :=
  unfold getConstPtrlineInPlane3D, getConstPtrlineInPlane2D,
    getNbPointsInOverlap, getConstPtrlineInBothHullPointIndices,
    getConstPtrVerticesIndices;
  cbn [invalid_lineNumber Z.ltb Z.eqb Z.compare orb clouds set_cloud
       set_basis set_hullPointIndices set_lineInBothHullPointIndices
       CloudMember_eqb negb line1InBothHullPointIndices
       line2InBothHullPointIndices hull1PointIndices hull2PointIndices].

(** Full mode with both output clouds: each output cloud holds the points of
    its line at the positions recorded in that line's index list, in that
    order, whatever it held before the call; the returned counts are the
    sizes [getNbPointsInOverlap] reports afterwards. *)
Theorem computeHulls_full_mode_overlap
  line1 line2 a b c d hullMethod alphaLine1 alphaLine2
  projectPointOnPlane isXYPointIn2DXYPolygon concaveHull uninit c1 c2
  (s : Members) :
  match computeHullsAndPointsInBothHulls line1 line2 a b c d hullMethod
          alphaLine1 alphaLine2 projectPointOnPlane isXYPointIn2DXYPolygon
          concaveHull uninit (Some c1) (Some c2) false s with
  | Done (n1, n2, o1, o2) s' =>
      o1 = Some (map (point_at line1) (line1InBothHullPointIndices s')) /\
      o2 = Some (map (point_at line2) (line2InBothHullPointIndices s')) /\
      n1 = getNbPointsInOverlap s' 0 /\
      n2 = getNbPointsInOverlap s' 1
  | _ => True
  end.
Proof.
  destruct (computeHullsAndPointsInBothHulls _ _ _ _ _ _ _ _ _ _ _ _ _ _ _ _ s)
    as [[[[n1 n2] o1] o2] s'| |] eqn:E; [|exact I|exact I].
  unfold computeHullsAndPointsInBothHulls in E.
  crunch E; settle_hyps; returned; accessors;
  repeat split; try reflexivity; rewrite length_map; reflexivity.
Qed.





(** [computePointsInBothHulls] (minimal memory, both outputs): each output
    cloud holds the points of its line at strictly increasing positions
    within the line, and each returned count is the size of that cloud. *)
Theorem computePointsInBothHulls_outputs
  line1 line2 a b c d hullMethod alphaLine1 alphaLine2
  projectPointOnPlane isXYPointIn2DXYPolygon concaveHull uninit c1 c2
  (s : Members) :
  match computePointsInBothHulls line1 line2 a b c d hullMethod
          alphaLine1 alphaLine2 projectPointOnPlane isXYPointIn2DXYPolygon
          concaveHull uninit (Some c1) (Some c2) s with
  | Done (n1, n2, o1, o2) s' =>
      (exists i1, o1 = Some (map (point_at line1) i1) /\ n1 = length i1 /\
         StronglySorted Nat.lt i1 /\ Forall (fun i => (i < length line1)%nat) i1) /\
      (exists i2, o2 = Some (map (point_at line2) i2) /\ n2 = length i2 /\
         StronglySorted Nat.lt i2 /\ Forall (fun i => (i < length line2)%nat) i2)
  | _ => True
  end.
Proof.
  destruct (computePointsInBothHulls _ _ _ _ _ _ _ _ _ _ _ _ _ _ _ s)
    as [[[[n1 n2] o1] o2] s'| |] eqn:E; [|exact I|exact I].
  unfold computePointsInBothHulls, computeHullsAndPointsInBothHulls in E.
  crunch E; settle_hyps; returned; accessors;
  split; eexists; (split; [reflexivity|]); rewrite length_map;
    (split; [reflexivity|]); (split; [apply indices_in_hull_sorted|]);
    (eapply Forall_impl; [|apply indices_in_hull_bound]);
    intros i; rewrite !length_map; auto.
Qed.

(** After [computePointsInBothHulls] the accessors no longer describe the
    call: the overlap counts and index lists, and the hull vertex indices,
    are those of the object before the call, and the projected and 2D
    clouds of both lines are [nullptr]. *)
Theorem computePointsInBothHulls_members
  line1 line2 a b c d hullMethod alphaLine1 alphaLine2
  projectPointOnPlane isXYPointIn2DXYPolygon concaveHull uninit c1 c2
  (s : Members) :
  match computePointsInBothHulls line1 line2 a b c d hullMethod
          alphaLine1 alphaLine2 projectPointOnPlane isXYPointIn2DXYPolygon
          concaveHull uninit (Some c1) (Some c2) s with
  | Done _ s' =>
      forall lineNumber : Z,
        getNbPointsInOverlap s' lineNumber = getNbPointsInOverlap s lineNumber /\
        getConstPtrlineInBothHullPointIndices s' lineNumber
          = getConstPtrlineInBothHullPointIndices s lineNumber /\
        getConstPtrVerticesIndices s' lineNumber
          = getConstPtrVerticesIndices s lineNumber /\
        getConstPtrlineInPlane3D s' lineNumber = None /\
        getConstPtrlineInPlane2D s' lineNumber = None
  | _ => True
  end.
Proof.
  destruct (computePointsInBothHulls _ _ _ _ _ _ _ _ _ _ _ _ _ _ _ s)
    as [v s'| |] eqn:E; [|exact I|exact I].
  unfold computePointsInBothHulls, computeHullsAndPointsInBothHulls in E.
  crunch E; settle_hyps; intros lineNumber; accessors;
  destruct (invalid_lineNumber lineNumber), (lineNumber =? 0); repeat split.
Qed.




(** Full mode keeps the intermediate clouds: [getConstPtrlineInPlane3D]
    gives the projection of each line onto the plane, and
    [getConstPtrlineInPlane2D] a cloud with one point per point of the line,
    each with [z = 0]. *)
Theorem computeHulls_full_mode_clouds
  line1 line2 a b c d hullMethod alphaLine1 alphaLine2
  projectPointOnPlane isXYPointIn2DXYPolygon concaveHull uninit
  out1 out2 (s : Members) :
  match computeHullsAndPointsInBothHulls line1 line2 a b c d hullMethod
          alphaLine1 alphaLine2 projectPointOnPlane isXYPointIn2DXYPolygon
          concaveHull uninit out1 out2 false s with
  | Done _ s' =>
      getConstPtrlineInPlane3D s' 0
        = Some (map (projectPointOnPlane a b c d) line1) /\
      getConstPtrlineInPlane3D s' 1
        = Some (map (projectPointOnPlane a b c d) line2) /\
      (exists cl1, getConstPtrlineInPlane2D s' 0 = Some cl1 /\
         length cl1 = length line1 /\ Forall (fun q => pcl.z q = fzero) cl1) /\
      (exists cl2, getConstPtrlineInPlane2D s' 1 = Some cl2 /\
         length cl2 = length line2 /\ Forall (fun q => pcl.z q = fzero) cl2)
  | _ => True
  end.
Proof.
  destruct (computeHullsAndPointsInBothHulls _ _ _ _ _ _ _ _ _ _ _ _ _ _ _ _ s)
    as [v s'| |] eqn:E; [|exact I|exact I].
  unfold computeHullsAndPointsInBothHulls in E.
  destruct out1, out2; crunch E; settle_hyps; accessors;
  (split; [reflexivity|]); (split; [reflexivity|]);
  split; eexists; (split; [reflexivity|]); rewrite ?length_map;
  (split; [reflexivity|]); apply Forall_map, Forall_forall; reflexivity.
Qed.

(** [getMinMaxPointsInOverlapPlane3D] reads [line1InPlane] when both index
    lists are non-empty. *)
Lemma getMinMaxPointsInOverlapPlane3D_null (s : Members) minPt maxPt :
  clouds s line1InPlane_ = None ->
  line1InBothHullPointIndices s <> [] ->
  line2InBothHullPointIndices s <> [] ->
  getMinMaxPointsInOverlapPlane3D minPt maxPt s = Undefined.
Proof.
  intros H N1 N2; unfold getMinMaxPointsInOverlapPlane3D, bind, get, deref.
  destruct (line1InBothHullPointIndices s); [congruence|].
  destruct (line2InBothHullPointIndices s); [congruence|].
  rewrite H; reflexivity.
Qed.

(** Minimal memory with a null output: the index lists are computed, the 2D
    clouds kept, but the projected 3D clouds are released, so
    [getMinMaxPointsInOverlapPlane3D] dereferences a null pointer whenever
    both overlaps are non-empty. *)
Theorem computeHulls_minimal_null_output_3D
  line1 line2 a b c d hullMethod alphaLine1 alphaLine2
  projectPointOnPlane isXYPointIn2DXYPolygon concaveHull uninit
  out1 out2 (s : Members) (minPt maxPt : pcl.PointXYZ) :
  out1 = None \/ out2 = None ->
  match computeHullsAndPointsInBothHulls line1 line2 a b c d hullMethod
          alphaLine1 alphaLine2 projectPointOnPlane isXYPointIn2DXYPolygon
          concaveHull uninit out1 out2 true s with
  | Done _ s' =>
      getConstPtrlineInPlane3D s' 0 = None /\
      getConstPtrlineInPlane3D s' 1 = None /\
      getConstPtrlineInPlane2D s' 0 <> None /\
      getConstPtrlineInPlane2D s' 1 <> None /\
      (line1InBothHullPointIndices s' <> [] ->
       line2InBothHullPointIndices s' <> [] ->
       getMinMaxPointsInOverlapPlane3D minPt maxPt s' = Undefined)
  | _ => True
  end.
Proof.
  intros Hnull.
  destruct (computeHullsAndPointsInBothHulls _ _ _ _ _ _ _ _ _ _ _ _ _ _ _ _ s)
    as [v s'| |] eqn:E; [|exact I|exact I].
  unfold computeHullsAndPointsInBothHulls in E.
  assert (Hm : match out1, out2 with Some _, Some _ => False | _, _ => True end)
    by (destruct Hnull as [-> | ->]; [|destruct out1]; exact I).
  destruct out1, out2; try contradiction; crunch E; settle_hyps;
  (split; [accessors; reflexivity|]); (split; [accessors; reflexivity|]);
  (split; [accessors; discriminate|]); (split; [accessors; discriminate|]);
  intros N1 N2;
  match goal with |- getMinMaxPointsInOverlapPlane3D _ _ ?S = _ =>
    exact (getMinMaxPointsInOverlapPlane3D_null S _ _ eq_refl N1 N2) end.
Qed.

Lemma computeHulls_minimal_null_output_3D_witness :
  ((None : option PointCloud) = None \/ Some ([] : PointCloud) = None) /\
  observe (computeHullsAndPointsInBothHulls sq4 [pt 1 1; pt 3 1; pt 3 3]
             dzero dzero done dzero "Andrew's" dzero dzero project_z0
             inside_all no_concave (fun _ => zero_counters) None (Some [])
             true initial_members) = Returned (4%nat, 3%nat, None, Some []) /\
  observe ((computeHullsAndPointsInBothHulls sq4 [pt 1 1; pt 3 1; pt 3 3]
              dzero dzero done dzero "Andrew's" dzero dzero project_z0
              inside_all no_concave (fun _ => zero_counters) None (Some [])
              true ;;
            getMinMaxPointsInOverlapPlane3D origin origin) initial_members)
  = Crashed /\
  match computeHullsAndPointsInBothHulls sq4 [pt 1 1; pt 3 1; pt 3 3]
          dzero dzero done dzero "Andrew's" dzero dzero project_z0 inside_all
          no_concave (fun _ => zero_counters) None (Some []) true
          initial_members with
  | Done _ s' =>
      getConstPtrlineInPlane3D s' 0 = None /\
      getConstPtrlineInPlane3D s' 1 = None /\
      getConstPtrlineInPlane2D s' 0 <> None /\
      getConstPtrlineInPlane2D s' 1 <> None /\
      (line1InBothHullPointIndices s' <> [] ->
       line2InBothHullPointIndices s' <> [] ->
       getMinMaxPointsInOverlapPlane3D origin origin s' = Undefined)
  | _ => True
  end.
Proof.
  split; [left; reflexivity|].
  split; [vm_compute; reflexivity|].
  split; [vm_compute; reflexivity|].
  apply computeHulls_minimal_null_output_3D; left; reflexivity.
Defined.


(** With no overlap point on either line, both bounding-box methods return
    [false], leave [minPt] and [maxPt] untouched and read no cloud. *)
Theorem getMinMaxPoints_empty_overlap (s : Members) (minPt maxPt : pcl.PointXYZ) :
  line1InBothHullPointIndices s = [] \/ line2InBothHullPointIndices s = [] ->
  getMinMaxPointsInOverlapPlane2D minPt maxPt s = Done (false, minPt, maxPt) s /\
  getMinMaxPointsInOverlapPlane3D minPt maxPt s = Done (false, minPt, maxPt) s.
Proof.
  intros H; unfold getMinMaxPointsInOverlapPlane2D,
    getMinMaxPointsInOverlapPlane3D, bind, get.
  destruct H as [-> | ->]; [split; reflexivity|].
  destruct (line1InBothHullPointIndices s); split; reflexivity.
Qed.

Lemma getMinMaxPoints_empty_overlap_witness :
  (line1InBothHullPointIndices initial_members = [] \/
   line2InBothHullPointIndices initial_members = []) /\
  getMinMaxPointsInOverlapPlane2D origin origin initial_members
  = Done (false, origin, origin) initial_members /\
  getMinMaxPointsInOverlapPlane3D origin origin initial_members
  = Done (false, origin, origin) initial_members.
Proof.
  split; [left; reflexivity|].
  apply getMinMaxPoints_empty_overlap; left; reflexivity.
Defined.


(** [getNbPointsInOverlap] is the size of the list
    [getConstPtrlineInBothHullPointIndices] points to, and [0] where the
    latter returns [nullptr]. *)
Theorem getNbPointsInOverlap_indices (s : Members) (lineNumber : Z) :
  getNbPointsInOverlap s lineNumber
  = match getConstPtrlineInBothHullPointIndices s lineNumber with
    | Some l => length l
    | None => 0%nat
    end.
Proof.
  unfold getNbPointsInOverlap, getConstPtrlineInBothHullPointIndices.
  destruct (invalid_lineNumber lineNumber), (lineNumber =? 0); reflexivity.
Qed.

Section HullSize.
Context {C : Type} `{Coord C}.

Lemma pop_while_length t (st : list (PointAndrews C)) p :
  (length (pop_while t st p) <= length st)%nat.
Proof.
  induction st as [|b st IH]; [reflexivity|].
  destruct st as [|a st']; [reflexivity|].
  cbn [pop_while].
  destruct (Nat.leb t (length (b :: a :: st')) && cleb (cross a b p) czero);
    [etransitivity; [exact IH | cbn [length]; lia] | reflexivity].
Qed.

Lemma chain_fold_length t (l st : list (PointAndrews C)) :
  (length (fold_left (chain_step t) l st) <= length st + length l)%nat.
Proof.
  revert st; induction l as [|p l IH]; intros st; cbn [fold_left length];
    [lia|].
  specialize (IH (chain_step t st p)).
  pose proof (pop_while_length t st p).
  unfold chain_step in *; cbn [length] in *; lia.
Qed.

Lemma insert_PointAndrews_perm (p : PointAndrews C) l :
  Permutation (insert_PointAndrews p l) (p :: l).
Proof.
  induction l as [|q l IH]; cbn; [reflexivity|].
  destruct (lt_PointAndrews q p); [|reflexivity].
  rewrite IH; apply perm_swap.
Qed.

Lemma sort_PointAndrews_perm (l : list (PointAndrews C)) :
  Permutation (sort_PointAndrews l) l.
Proof.
  unfold sort_PointAndrews; induction l as [|p l IH]; cbn; [reflexivity|].
  rewrite insert_PointAndrews_perm, IH; reflexivity.
Qed.

End HullSize.

(** For more than three points, the lower chain holds at most [n] cells and
    the full chain at most [2n - 1], within the [2n] cells of
    [hull.resize(2 * n)]; the returned hull has at most [2n - 2] points. *)
Theorem AndrewsConvex_hull_buffer {C : Type} `{Coord C}
  (points : list (PointAndrews C)) :
  (3 < length points)%nat ->
  (length (lower_chain (sort_PointAndrews points)) <= length points)%nat /\
  (length (upper_chain (sort_PointAndrews points)
             (lower_chain (sort_PointAndrews points)))
   <= 2 * length points - 1)%nat /\
  (length (fst (AndrewsConvex_hull points)) <= 2 * length points - 2)%nat.
Proof.
  intros Hn.
  pose proof (sort_PointAndrews_length points) as Hs.
  assert (Hl : (length (lower_chain (sort_PointAndrews points))
                <= length points)%nat)
    by (unfold lower_chain; pose proof (chain_fold_length 2
          (sort_PointAndrews points) []); cbn [length] in *; lia).
  assert (Hu : (length (upper_chain (sort_PointAndrews points)
                  (lower_chain (sort_PointAndrews points)))
                <= 2 * length points - 1)%nat).
  { unfold upper_chain.
    match goal with |- (length (fold_left _ ?l ?st) <= _)%nat =>
      pose proof (chain_fold_length (S (length (lower_chain
        (sort_PointAndrews points)))) l st) end.
    rewrite length_rev, firstn_length_le in * by lia. lia. }
  split; [exact Hl|]; split; [exact Hu|].
  unfold AndrewsConvex_hull.
  replace (Nat.leb (length points) 3) with false
    by (symmetry; apply Nat.leb_gt; lia).
  cbn [fst]; rewrite length_rev.
  destruct (upper_chain _ _); cbn [tl length] in *; lia.
Qed.

Lemma AndrewsConvex_hull_buffer_witness :
  (3 < length [mkPointAndrews 0 0 0; mkPointAndrews 1 0 1;
               mkPointAndrews 1 1 2; mkPointAndrews 0 1 3])%nat /\
  let points := [mkPointAndrews 0 0 0; mkPointAndrews 1 0 1;
                 mkPointAndrews 1 1 2; mkPointAndrews 0 1 3] in
  (length (lower_chain (sort_PointAndrews points)) <= length points)%nat /\
  (length (upper_chain (sort_PointAndrews points)
             (lower_chain (sort_PointAndrews points)))
   <= 2 * length points - 1)%nat /\
  (length (fst (AndrewsConvex_hull points)) <= 2 * length points - 2)%nat.
Proof.
  split; [cbn; lia|].
  apply (AndrewsConvex_hull_buffer (C := Z)); cbn; lia.
Defined.

(** [AndrewsConvex_hull] leaves in [points] a reordering of its input, and
    the input itself when it has at most three points. *)
Theorem AndrewsConvex_hull_sorts_in_place {C : Type} `{Coord C}
  (points : list (PointAndrews C)) :
  Permutation (snd (AndrewsConvex_hull points)) points /\
  ((length points <= 3)%nat -> snd (AndrewsConvex_hull points) = points).
Proof.
  unfold AndrewsConvex_hull; split.
  - destruct (Nat.leb (length points) 3);
      [reflexivity | apply sort_PointAndrews_perm].
  - intros Hn; apply Nat.leb_le in Hn; rewrite Hn; reflexivity.
Qed.

(** Every point of the hull returned by [AndrewsConvex_hull] is one of its
    input points. *)
Theorem AndrewsConvex_hull_vertices_in_input {C : Type} `{Coord C}
  (points : list (PointAndrews C)) :
  Forall (fun q => In q points) (fst (AndrewsConvex_hull points)).
Proof.
  apply Forall_forall; intros q; apply AndrewsConvex_hull_incl.
Qed.

Lemma andrews_indices_positions (cl : PointCloud) :
  Forall (fun k => exists n, k = static_cast_int n /\ (n < length cl)%nat)
    (andrews_indices zero_counters cl).
Proof.
  apply Forall_forall; intros k Hk.
  unfold andrews_indices in Hk; cbn [start_indices zero_counters skipn] in Hk.
  apply in_map_iff in Hk; destruct Hk as [q [<- Hq]].
  destruct (andrews_points_index zero_counters cl q
              (AndrewsConvex_hull_incl _ q Hq)) as (Hlt & _ & _).
  exists (index q); split; [reflexivity | exact Hlt].
Qed.

(** Full mode with Andrew's method (counters starting from [0]): every hull
    vertex index [getConstPtrVerticesIndices(k)] reports is a position of
    line [k]. *)
Theorem computeHulls_andrews_vertex_indices
  line1 line2 a b c d alphaLine1 alphaLine2
  projectPointOnPlane isXYPointIn2DXYPolygon concaveHull out1 out2
  (s : Members) :
  match computeHullsAndPointsInBothHulls line1 line2 a b c d "Andrew's"
          alphaLine1 alphaLine2 projectPointOnPlane isXYPointIn2DXYPolygon
          concaveHull (fun _ => zero_counters) out1 out2 false s with
  | Done _ s' =>
      (exists l1, getConstPtrVerticesIndices s' 0 = Some l1 /\
         Forall (fun k => exists n, k = static_cast_int n /\
                                    (n < length line1)%nat) l1) /\
      (exists l2, getConstPtrVerticesIndices s' 1 = Some l2 /\
         Forall (fun k => exists n, k = static_cast_int n /\
                                    (n < length line2)%nat) l2)
  | _ => True
  end.
Proof.
  destruct (computeHullsAndPointsInBothHulls _ _ _ _ _ _ _ _ _ _ _ _ _ _ _ _ s)
    as [v s'| |] eqn:E; [|exact I|exact I].
  unfold computeHullsAndPointsInBothHulls in E.
  replace (String.eqb "Andrew's" "PCL ConcaveHull") with false in E
    by reflexivity.
  replace (String.eqb "Andrew's" "Andrew's") with true in E by reflexivity.
  destruct out1, out2; crunch E; settle_hyps; accessors;
  split; eexists; (split; [reflexivity|]);
  match goal with |- Forall _ (andrews_indices _ ?cl) =>
    pose proof (andrews_indices_positions cl) as P end;
  rewrite !length_map in P; exact P.
Qed.

(** A call starting with [line1InPlane] released clears a null cloud. *)
Lemma computeHulls_released_line1InPlane
  line1 line2 a b c d hullMethod alphaLine1 alphaLine2
  projectPointOnPlane isXYPointIn2DXYPolygon concaveHull uninit
  out1 out2 minimalMemory (s : Members) :
  clouds s line1InPlane_ = None ->
  computeHullsAndPointsInBothHulls line1 line2 a b c d hullMethod
    alphaLine1 alphaLine2 projectPointOnPlane isXYPointIn2DXYPolygon
    concaveHull uninit out1 out2 minimalMemory s = Undefined.
Proof.
  intros H; unfold computeHullsAndPointsInBothHulls, bind at 1,
    createCloudFromProjectionInPlane, store, bind at 1, deref.
  rewrite H; reflexivity.
Qed.

(** A minimal-memory run releases [line1InPlane]: any later call of
    [computeHullsAndPointsInBothHulls] (or [computePointsInBothHulls]) on the
    same object dereferences a null pointer. *)
Theorem computeHulls_minimal_then_undefined
  line1 line2 a b c d hullMethod alphaLine1 alphaLine2
  projectPointOnPlane isXYPointIn2DXYPolygon concaveHull uninit
  out1 out2 out1' out2' minimalMemory' (s : Members) :
  match computeHullsAndPointsInBothHulls line1 line2 a b c d hullMethod
          alphaLine1 alphaLine2 projectPointOnPlane isXYPointIn2DXYPolygon
          concaveHull uninit out1 out2 true s with
  | Done _ s' =>
      computeHullsAndPointsInBothHulls line1 line2 a b c d hullMethod
        alphaLine1 alphaLine2 projectPointOnPlane isXYPointIn2DXYPolygon
        concaveHull uninit out1' out2' minimalMemory' s' = Undefined
  | _ => True
  end.
Proof.
  destruct (computeHullsAndPointsInBothHulls _ _ _ _ _ _ _ _ _ _ _ _ _ _ _ _ s)
    as [v s'| |] eqn:E; [|exact I|exact I].
  unfold computeHullsAndPointsInBothHulls in E.
  destruct out1, out2; crunch E; settle_hyps;
  apply computeHulls_released_line1InPlane;
  cbn [clouds set_cloud set_basis set_hullPointIndices
       set_lineInBothHullPointIndices CloudMember_eqb negb]; reflexivity.
Qed.
